(** * TextLocEnv: the episode state machine of the text-localization environment

    A shallow embedding of [text_localization_environment/TextLocEnv.py].
    Numbers are exact rationals ([Q]); Python's [/] on a zero divisor raises
    [ZeroDivisionError].  The object's fields live in a record that every
    method threads; a raised exception leaves the fields as they were at the
    raise, as the Python object keeps them.  Boxes are values: the window a
    trigger logs is the window at that moment. *)

From Stdlib Require Import QArith ZArith List Bool String Lia Lqa.
Import ListNotations.

Local Open Scope Q_scope.

(** ** Python numbers *)

(** [b > a] and [a < b] on numbers. *)
Definition Qgtb (b a : Q) : bool := negb (Qle_bool b a).
Definition Qltb (a b : Q) : bool := negb (Qle_bool b a).

(** [max(a, b)]: the first argument unless the second is strictly greater. *)
Definition py_max (a b : Q) : Q := if Qgtb b a then b else a.

(** [min(a, b)]: the first argument unless the second is strictly smaller. *)
Definition py_min (a b : Q) : Q := if Qgtb a b then b else a.

(** ** Exceptions and results *)

Inductive exn : Type :=
| AssertionError
| ZeroDivisionError
| IndexError
| KeyError
| TypeError.

Inductive result (A : Type) : Type :=
| Ok (a : A)
| Raise (e : exn).

Arguments Ok {A} a.
Arguments Raise {A} e.

(** [a / b] *)
Definition py_truediv (a b : Q) : result Q :=
  if Qeq_bool b 0 then Raise ZeroDivisionError else Ok (a / b).

(** Two results that raise alike or return equal numbers. *)
Definition result_Qeq (r s : result Q) : Prop :=
  match r, s with
  | Ok v, Ok w => v == w
  | Raise x, Raise y => x = y
  | _, _ => False
  end.

(** ** Boxes: [[x0, y0, x1, y1]] *)

Record Box : Type := mkBox { x0 : Q; y0 : Q; x1 : Q; y1 : Q }.

(** A box as the caller may hand it over: flat, or as two corner points. *)
Inductive RawBox : Type :=
| Flat (b : Box)
| Corners (p0 p1 : Q * Q).

Definition to_standard_box (bbox : RawBox) : Box :=
  match bbox with
  | Flat b => b
  | Corners p0 p1 => mkBox (fst p0) (snd p0) (fst p1) (snd p1)
  end.

(** The invariant the data model asks of a box. *)
Definition well_formed (b : Box) : Prop := x0 b <= x1 b /\ y0 b <= y1 b.

Definition area (b : Box) : Q := (x1 b - x0 b) * (y1 b - y0 b).

(** ** Geometry, with the agent's window [bbox] as [self.bbox] *)

Definition compute_intersection (bbox other_bbox : Box) : Q :=
  let left := py_max (x0 bbox) (x0 other_bbox) in
  let top := py_max (y0 bbox) (y0 other_bbox) in
  let right := py_min (x1 bbox) (x1 other_bbox) in
  let bottom := py_min (y1 bbox) (y1 other_bbox) in
  if Qltb right left || Qltb bottom top then 0
  else (right - left) * (bottom - top).

Definition compute_iou (bbox other_bbox : Box) : result Q :=
  let intersection := compute_intersection bbox other_bbox in
  let area_1 := (x1 bbox - x0 bbox) * (y1 bbox - y0 bbox) in
  let area_2 := (x1 other_bbox - x0 other_bbox) * (y1 other_bbox - y0 other_bbox) in
  let union := area_1 + area_2 - intersection in
  py_truediv intersection union.

(** ** The collaborators the environment consumes

    Image decoding and masking, the bounding-box transformer, box scaling and
    the random generator are not part of this file's source; the environment
    is stated over any implementation of them. *)

Class Collaborators : Type := {
  Image : Type;
  (** [Image.open(path)] *)
  Image_open : string -> Image;
  (** [image.mode] and [image.convert(mode)] *)
  image_mode : Image -> string;
  image_convert : Image -> string -> Image;
  (** [image.width], [image.height] *)
  image_width : Image -> Z;
  image_height : Image -> Z;
  (** [ImageMasker(image, bbox, ior_marker_type).mask()] *)
  ImageMasker_mask : Image -> Box -> string -> Image;
  (** [image.crop(bbox).resize((224, 224), LANCZOS)] as an array *)
  Warped : Type;
  crop_resize : Image -> Box -> Warped;
  (** the bounding-box transformer: its action set, window and reset *)
  Transformer : Type;
  n_transformer_actions : nat;
  transformer_action : nat -> Transformer -> Transformer;
  transformer_bbox : Transformer -> Box;
  transformer_reset : Z -> Z -> Transformer -> Transformer;
  (** [utils.scale_bboxes(bboxes, image_size, factor)] *)
  scale_bboxes : list Box -> Z * Z -> Q -> list Box;
  (** [np_random]: [randint(n)] and [random()] *)
  Rng : Type;
  rng_randint : nat -> Rng -> nat * Rng;
  rng_random : Rng -> Q * Rng
}.

(** ** Configuration: the fields [__init__] sets and nothing changes later *)

Record Config : Type := mkConfig {
  mode : string;
  bbox_scaling : option Q;
  premasking : bool;
  playout_episode : bool;
  max_steps_per_image : Z;
  has_termination_action : bool;
  ior_marker_type : string;
  history_length : nat;
  image_paths : list string;
  true_bboxes : list (list Box)
}.

Definition ETA_TRIGGER : Q := 70.
Definition ETA_TERMINATION : Q := 10.
Definition DURATION_PENALTY : Q := 3 # 100.
Definition P_MASK : Q := 1 # 2.

(** The one handler [step] can find registered. *)
Inductive Handler : Type := register_trigger_iou_handler.

Section Environment.
Context {C : Collaborators}.

Definition Obs : Type := (Warped * list (list bool))%type.

(** ** The object's mutable fields *)

Record Env : Type := mkEnv {
  bbox_transformer : Transformer;
  np_random : Rng;
  post_step_handler : option Handler;
  episode_image : Image;
  episode_true_bboxes : list Box;
  episode_pred_bboxes : list Box;
  episode_trigger_ious : list Q;
  episode_masked_indices : list nat;
  num_triggers_used : Z;
  history : list (list bool);
  current_step : Z;
  state : Obs;
  done : bool;
  iou : Q;
  max_iou : Q
}.

Definition set_bbox_transformer (v : Transformer) (e : Env) : Env :=
  mkEnv v (np_random e) (post_step_handler e) (episode_image e)
    (episode_true_bboxes e) (episode_pred_bboxes e) (episode_trigger_ious e)
    (episode_masked_indices e) (num_triggers_used e) (history e)
    (current_step e) (state e) (done e) (iou e) (max_iou e).

Definition set_np_random (v : Rng) (e : Env) : Env :=
  mkEnv (bbox_transformer e) v (post_step_handler e) (episode_image e)
    (episode_true_bboxes e) (episode_pred_bboxes e) (episode_trigger_ious e)
    (episode_masked_indices e) (num_triggers_used e) (history e)
    (current_step e) (state e) (done e) (iou e) (max_iou e).

Definition set_post_step_handler (v : option Handler) (e : Env) : Env :=
  mkEnv (bbox_transformer e) (np_random e) v (episode_image e)
    (episode_true_bboxes e) (episode_pred_bboxes e) (episode_trigger_ious e)
    (episode_masked_indices e) (num_triggers_used e) (history e)
    (current_step e) (state e) (done e) (iou e) (max_iou e).

Definition set_episode_image (v : Image) (e : Env) : Env :=
  mkEnv (bbox_transformer e) (np_random e) (post_step_handler e) v
    (episode_true_bboxes e) (episode_pred_bboxes e) (episode_trigger_ious e)
    (episode_masked_indices e) (num_triggers_used e) (history e)
    (current_step e) (state e) (done e) (iou e) (max_iou e).

Definition set_episode_true_bboxes (v : list Box) (e : Env) : Env :=
  mkEnv (bbox_transformer e) (np_random e) (post_step_handler e) (episode_image e)
    v (episode_pred_bboxes e) (episode_trigger_ious e)
    (episode_masked_indices e) (num_triggers_used e) (history e)
    (current_step e) (state e) (done e) (iou e) (max_iou e).

Definition set_episode_pred_bboxes (v : list Box) (e : Env) : Env :=
  mkEnv (bbox_transformer e) (np_random e) (post_step_handler e) (episode_image e)
    (episode_true_bboxes e) v (episode_trigger_ious e)
    (episode_masked_indices e) (num_triggers_used e) (history e)
    (current_step e) (state e) (done e) (iou e) (max_iou e).

Definition set_episode_trigger_ious (v : list Q) (e : Env) : Env :=
  mkEnv (bbox_transformer e) (np_random e) (post_step_handler e) (episode_image e)
    (episode_true_bboxes e) (episode_pred_bboxes e) v
    (episode_masked_indices e) (num_triggers_used e) (history e)
    (current_step e) (state e) (done e) (iou e) (max_iou e).

Definition set_episode_masked_indices (v : list nat) (e : Env) : Env :=
  mkEnv (bbox_transformer e) (np_random e) (post_step_handler e) (episode_image e)
    (episode_true_bboxes e) (episode_pred_bboxes e) (episode_trigger_ious e)
    v (num_triggers_used e) (history e)
    (current_step e) (state e) (done e) (iou e) (max_iou e).

Definition set_num_triggers_used (v : Z) (e : Env) : Env :=
  mkEnv (bbox_transformer e) (np_random e) (post_step_handler e) (episode_image e)
    (episode_true_bboxes e) (episode_pred_bboxes e) (episode_trigger_ious e)
    (episode_masked_indices e) v (history e)
    (current_step e) (state e) (done e) (iou e) (max_iou e).

Definition set_history (v : list (list bool)) (e : Env) : Env :=
  mkEnv (bbox_transformer e) (np_random e) (post_step_handler e) (episode_image e)
    (episode_true_bboxes e) (episode_pred_bboxes e) (episode_trigger_ious e)
    (episode_masked_indices e) (num_triggers_used e) v
    (current_step e) (state e) (done e) (iou e) (max_iou e).

Definition set_current_step (v : Z) (e : Env) : Env :=
  mkEnv (bbox_transformer e) (np_random e) (post_step_handler e) (episode_image e)
    (episode_true_bboxes e) (episode_pred_bboxes e) (episode_trigger_ious e)
    (episode_masked_indices e) (num_triggers_used e) (history e)
    v (state e) (done e) (iou e) (max_iou e).

Definition set_state (v : Obs) (e : Env) : Env :=
  mkEnv (bbox_transformer e) (np_random e) (post_step_handler e) (episode_image e)
    (episode_true_bboxes e) (episode_pred_bboxes e) (episode_trigger_ious e)
    (episode_masked_indices e) (num_triggers_used e) (history e)
    (current_step e) v (done e) (iou e) (max_iou e).

Definition set_done (v : bool) (e : Env) : Env :=
  mkEnv (bbox_transformer e) (np_random e) (post_step_handler e) (episode_image e)
    (episode_true_bboxes e) (episode_pred_bboxes e) (episode_trigger_ious e)
    (episode_masked_indices e) (num_triggers_used e) (history e)
    (current_step e) (state e) v (iou e) (max_iou e).

Definition set_iou (v : Q) (e : Env) : Env :=
  mkEnv (bbox_transformer e) (np_random e) (post_step_handler e) (episode_image e)
    (episode_true_bboxes e) (episode_pred_bboxes e) (episode_trigger_ious e)
    (episode_masked_indices e) (num_triggers_used e) (history e)
    (current_step e) (state e) (done e) v (max_iou e).

Definition set_max_iou (v : Q) (e : Env) : Env :=
  mkEnv (bbox_transformer e) (np_random e) (post_step_handler e) (episode_image e)
    (episode_true_bboxes e) (episode_pred_bboxes e) (episode_trigger_ious e)
    (episode_masked_indices e) (num_triggers_used e) (history e)
    (current_step e) (state e) (done e) (iou e) v.
(** ** Methods: state passing with exceptions *)

Definition M (A : Type) : Type := Env -> result A * Env.

Definition ret {A : Type} (a : A) : M A := fun e => (Ok a, e).

Definition bind {A B : Type} (m : M A) (k : A -> M B) : M B :=
  fun e =>
    match m e with
    | (Ok a, e') => k a e'
    | (Raise x, e') => (Raise x, e')
    end.

Definition raise {A : Type} (x : exn) : M A := fun e => (Raise x, e).

Definition get : M Env := fun e => (Ok e, e).

Definition modify (f : Env -> Env) : M unit := fun e => (Ok tt, f e).

(** A computation that only reads the fields. *)
Definition lift {A : Type} (r : Env -> result A) : M A := fun e => (r e, e).

Notation "x <- m ;; k" := (bind m (fun x => k))
  (at level 61, m at next level, right associativity).
Notation "m ;;; k" := (bind m (fun _ => k))
  (at level 61, right associativity).

(** *** The action set *)

Inductive Action : Type :=
| Transform (i : nat)
| Trigger
| Terminate.

Definition Action_eqb (a b : Action) : bool :=
  match a, b with
  | Transform i, Transform j => Nat.eqb i j
  | Trigger, Trigger => true
  | Terminate, Terminate => true
  | _, _ => false
  end.

(** The dict of [action_set], as the list of its values by key [0, 1, ...]. *)
Definition action_set (cfg : Config) : list Action :=
  let n_actions := n_transformer_actions in
  map Transform (seq 0 n_actions) ++ [Trigger] ++
  (if has_termination_action cfg then [Terminate] else []).

(** [self.action_set[action]] *)
Definition action_set_get (cfg : Config) (action : Z) : result Action :=
  if (action <? 0)%Z then Raise KeyError
  else match nth_error (action_set cfg) (Z.to_nat action) with
       | Some a => Ok a
       | None => Raise KeyError
       end.

(** [self.action_space.n] and [self.action_space.contains(action)] *)
Definition action_space_n (cfg : Config) : nat := List.length (action_set cfg).

Definition action_space_contains (cfg : Config) (action : Z) : bool :=
  ((0 <=? action)%Z && (action <? Z.of_nat (action_space_n cfg))%Z)%bool.

Definition is_trigger (cfg : Config) (action : Z) : result bool :=
  match action_set_get cfg action with
  | Ok a => Ok (Action_eqb a Trigger)
  | Raise x => Raise x
  end.

Definition is_termination (cfg : Config) (action : Z) : result bool :=
  match action_set_get cfg action with
  | Ok a => Ok (Action_eqb a Terminate)
  | Raise x => Raise x
  end.

(** [self.bbox] *)
Definition bbox (e : Env) : Box := transformer_bbox (bbox_transformer e).

(** *** History and observation *)

Definition create_empty_history (cfg : Config) : list (list bool) :=
  repeat (repeat false (action_space_n cfg)) (history_length cfg).

Definition to_one_hot (cfg : Config) (action : Z) : list bool :=
  map (fun i => Z.eqb (Z.of_nat i) action) (seq 0 (action_space_n cfg)).

Definition get_warped_bbox_contents (e : Env) : Warped :=
  crop_resize (episode_image e) (bbox e).

Definition compute_state (e : Env) : Obs :=
  (get_warped_bbox_contents e, history e).

(** *** Unmasked boxes and the best IoU *)

Definition enumerate {A : Type} (l : list A) : list (nat * A) :=
  combine (seq 0 (List.length l)) l.

(** [index in self.episode_masked_indices] *)
Definition index_in (index : nat) (l : list nat) : bool :=
  existsb (Nat.eqb index) l.

Definition episode_true_bboxes_unmasked (e : Env) : list Box :=
  fold_left
    (fun bboxes_unmasked '(index, bbox) =>
       let is_masked := index_in index (episode_masked_indices e) in
       if negb is_masked then bboxes_unmasked ++ [bbox] else bboxes_unmasked)
    (enumerate (episode_true_bboxes e)) [].

(** The loop of [compute_best_iou]; an exception ends it. *)
Fixpoint best_iou_loop (window : Box) (boxes : list Box) (max_iou : Q) : result Q :=
  match boxes with
  | [] => Ok max_iou
  | box :: rest =>
      match compute_iou window box with
      | Ok v => best_iou_loop window rest (py_max max_iou v)
      | Raise x => Raise x
      end
  end.

Definition compute_best_iou (e : Env) : result Q :=
  best_iou_loop (bbox e) (episode_true_bboxes_unmasked e) 0.

(** [not max_iou]: true for [None] and for zero. *)
Definition py_not (max_iou : option Q) : bool :=
  match max_iou with
  | None => true
  | Some v => Qeq_bool v 0
  end.

(** The loop of [closest_unmasked_true_bbox] over the enumerated boxes; the
    accumulator is [(max_iou, best_box, best_box_index)]. *)
Fixpoint closest_loop (window : Box) (masked : list nat) (items : list (nat * Box))
    (acc : option Q * option Box * option nat)
    : result (option Q * option Box * option nat) :=
  match items with
  | [] => Ok acc
  | (index, box) :: rest =>
      if index_in index masked then closest_loop window masked rest acc
      else
        match compute_iou window box with
        | Raise x => Raise x
        | Ok iou =>
            let '(max_iou, best_box, best_box_index) := acc in
            if py_not max_iou
               || match max_iou with Some m => Qgtb iou m | None => false end
            then closest_loop window masked rest (Some iou, Some box, Some index)
            else closest_loop window masked rest acc
        end
  end.

Definition closest_unmasked_true_bbox (e : Env) : result (option nat * option Box) :=
  match closest_loop (bbox e) (episode_masked_indices e)
          (enumerate (episode_true_bboxes e)) (None, None, None) with
  | Ok (_, best_box, best_box_index) => Ok (best_box_index, best_box)
  | Raise x => Raise x
  end.

(** *** Masking, trigger and terminate *)

Definition create_ior_mark (cfg : Config) (bbox : RawBox) : M unit :=
  let bbox := to_standard_box bbox in
  modify (fun e =>
    set_episode_image (ImageMasker_mask (episode_image e) bbox (ior_marker_type cfg)) e).

Definition _register_trigger_iou : M unit :=
  modify (fun e => set_episode_trigger_ious (episode_trigger_ious e ++ [iou e]) e).

Definition trigger (cfg : Config) : M unit :=
  modify (fun e => set_num_triggers_used (num_triggers_used e + 1)%Z e) ;;;
  modify (fun e => set_episode_pred_bboxes (episode_pred_bboxes e ++ [bbox e]) e) ;;;
  modify (set_post_step_handler (Some register_trigger_iou_handler)) ;;;
  if negb (playout_episode cfg) then
    modify (set_done true)
  else
    (if String.eqb (mode cfg) "train" then
       e <- get ;;
       if (0 <? List.length (episode_true_bboxes_unmasked e))%nat then
         r <- lift closest_unmasked_true_bbox ;;
         match r with
         | (Some index, Some bbox) =>
             create_ior_mark cfg (Flat bbox) ;;;
             modify (fun e => set_episode_masked_indices (episode_masked_indices e ++ [index]) e)
         | _ => raise TypeError
         end
       else ret tt
     else
       e <- get ;;
       create_ior_mark cfg (Flat (bbox e))) ;;;
    modify (fun e =>
      set_bbox_transformer
        (transformer_reset (image_width (episode_image e)) (image_height (episode_image e))
           (bbox_transformer e)) e).

Definition terminate : M unit := modify (set_done true).

(** Calling [self.action_set[action]()]. *)
Definition call_action (cfg : Config) (action : Z) : M unit :=
  a <- lift (fun _ => action_set_get cfg action) ;;
  match a with
  | Transform i =>
      modify (fun e => set_bbox_transformer (transformer_action i (bbox_transformer e)) e)
  | Trigger => trigger cfg
  | Terminate => terminate
  end.

(** *** Reward *)

Definition calculate_reward (cfg : Config) (action : Z) : M Q :=
  let reward := 0 in
  is_term <- (if has_termination_action cfg
              then lift (fun _ => is_termination cfg action)
              else ret false) ;;
  if is_term then
    e <- get ;;
    pct_triggers_used <-
      lift (fun _ => py_truediv (inject_Z (num_triggers_used e))
                       (inject_Z (Z.of_nat (List.length (episode_true_bboxes e))))) ;;
    if negb (Qeq_bool pct_triggers_used 1) then
      ret (-1 * ETA_TERMINATION)
    else
      ret (ETA_TERMINATION + (inject_Z (current_step e) * DURATION_PENALTY))
  else
    is_trig <- lift (fun _ => is_trigger cfg action) ;;
    if is_trig then
      e <- get ;;
      ret (ETA_TRIGGER * iou e - (inject_Z (current_step e) * DURATION_PENALTY))
    else
      v <- lift compute_best_iou ;;
      modify (set_iou v) ;;;
      ret reward.

(** *** step *)

Definition run_handler (h : Handler) : M unit :=
  match h with
  | register_trigger_iou_handler => _register_trigger_iou
  end.

Definition step (cfg : Config) (action : Z) : M (Obs * Q * bool) :=
  if negb (action_space_contains cfg action) then raise AssertionError
  else
    modify (fun e => set_current_step (current_step e + 1)%Z e) ;;;
    call_action cfg action ;;;
    reward <- calculate_reward cfg action ;;
    modify (fun e => set_max_iou (py_max (iou e) (max_iou e)) e) ;;;
    modify (fun e => set_history (to_one_hot cfg action :: history e) e) ;;;
    modify (fun e => set_history (removelast (history e)) e) ;;;
    modify (fun e => set_state (compute_state e) e) ;;;
    e <- get ;;
    (match post_step_handler e with
     | Some h => run_handler h ;;; modify (set_post_step_handler None)
     | None => ret tt
     end) ;;;
    e <- get ;;
    (if negb (max_steps_per_image cfg =? -1)%Z
        && (max_steps_per_image cfg <=? current_step e)%Z
     then modify (set_done true)
     else ret tt) ;;;
    e <- get ;;
    ret (state e, reward, done e).

(** The object after a run of [step] calls, whatever each of them returned or
    raised. *)
Fixpoint steps (cfg : Config) (actions : list Z) (e : Env) : Env :=
  match actions with
  | [] => e
  | a :: rest => steps cfg rest (snd (step cfg a e))
  end.

(** *** reset *)

(** [l[i]] for a non-negative index. *)
Definition py_index {A : Type} (l : list A) (i : nat) : result A :=
  match nth_error l i with
  | Some a => Ok a
  | None => Raise IndexError
  end.

Definition episode_num_true_bboxes (e : Env) : option Z :=
  match episode_true_bboxes e with
  | [] => None
  | _ => Some (Z.of_nat (List.length (episode_true_bboxes e)))
  end.

(** The premasking loop; comparing [None] with a number raises. *)
Fixpoint premask_loop (cfg : Config) (items : list (nat * Box)) (num_unmasked : option Z)
    : M unit :=
  match items with
  | [] => ret tt
  | (idx, box) :: rest =>
      e <- get ;;
      let '(mask_rand, rng) := rng_random (np_random e) in
      modify (set_np_random rng) ;;;
      let min_unmasked := (if has_termination_action cfg then 0 else 1)%Z in
      match num_unmasked with
      | None => raise TypeError
      | Some n =>
          if (min_unmasked <? n)%Z && Qle_bool mask_rand P_MASK then
            create_ior_mark cfg (Flat box) ;;;
            modify (fun e => set_episode_masked_indices (episode_masked_indices e ++ [idx]) e) ;;;
            premask_loop cfg rest (Some (n - 1)%Z)
          else premask_loop cfg rest (Some n)
      end
  end.

Definition reset (cfg : Config) (image_index : option nat) : M Obs :=
  modify (set_history (create_empty_history cfg)) ;;;
  image_index <-
    match image_index with
    | None =>
        e <- get ;;
        let '(i, rng) := rng_randint (List.length (image_paths cfg)) (np_random e) in
        modify (set_np_random rng) ;;; ret i
    | Some i => ret i
    end ;;
  path <- lift (fun _ => py_index (image_paths cfg) image_index) ;;
  modify (set_episode_image (Image_open path)) ;;;
  bboxes <- lift (fun _ => py_index (true_bboxes cfg) image_index) ;;
  modify (set_episode_true_bboxes bboxes) ;;;
  match bbox_scaling cfg with
  | Some factor =>
      if negb (Qeq_bool factor 1) then
        modify (fun e =>
          set_episode_true_bboxes
            (scale_bboxes (episode_true_bboxes e)
               (image_width (episode_image e), image_height (episode_image e)) factor) e)
      else ret tt
  | None => ret tt
  end ;;;
  e <- get ;;
  (if negb (String.eqb (image_mode (episode_image e)) "RGB") then
     modify (set_episode_image (image_convert (episode_image e) "RGB"))
   else ret tt) ;;;
  modify (set_episode_masked_indices []) ;;;
  (if String.eqb (mode cfg) "train" && premasking cfg then
     e <- get ;;
     premask_loop cfg (enumerate (episode_true_bboxes e)) (episode_num_true_bboxes e)
   else ret tt) ;;;
  modify (set_episode_pred_bboxes []) ;;;
  modify (set_episode_trigger_ious []) ;;;
  modify (set_num_triggers_used 0%Z) ;;;
  modify (set_current_step 0%Z) ;;;
  modify (fun e =>
    set_bbox_transformer
      (transformer_reset (image_width (episode_image e)) (image_height (episode_image e))
         (bbox_transformer e)) e) ;;;
  modify (fun e => set_state (compute_state e) e) ;;;
  modify (set_done false) ;;;
  v <- lift compute_best_iou ;;
  modify (set_iou v) ;;;
  modify (fun e => set_max_iou (iou e) e) ;;;
  e <- get ;;
  ret (state e).

End Environment.

Arguments Env : clear implicits.
Arguments M : clear implicits.

(** ** Relations and predicates the properties are stated with *)

Section Specification.
Context {C : Collaborators}.

(** A relation between the fields before and after a method, closed under
    doing nothing and under sequencing. *)
Class Frame (R : Env C -> Env C -> Prop) : Prop := {
  frame_refl : forall e, R e e;
  frame_trans : forall e1 e2 e3, R e1 e2 -> R e2 e3 -> R e1 e3
}.

Definition preserves (R : Env C -> Env C -> Prop) {A : Type} (m : M C A) : Prop :=
  forall e, R e (snd (m e)).

(** [max_iou] has not decreased. *)
Definition max_iou_le (e e' : Env C) : Prop := max_iou e <= max_iou e'.

(** The accumulator once a box has been taken. *)
Definition filled (acc : option Q * option Box * option nat) : Prop :=
  exists v b i, acc = (Some v, Some b, Some i).

(** Every IoU of the window against the listed boxes is a number. *)
Definition ious_defined_on (window : Box) (boxes : list Box) : Prop :=
  forall box, In box boxes -> exists v, compute_iou window box = Ok v.

Definition ious_defined (e : Env C) : Prop :=
  ious_defined_on (bbox e) (episode_true_bboxes e).

(** The fields the reward of a trigger and its log entry are read from. *)
Definition same_iou_log (e e' : Env C) : Prop :=
  iou e' = iou e /\
  episode_trigger_ious e' = episode_trigger_ious e /\
  current_step e' = current_step e.

(** The log and the registered handler are as they were. *)
Definition same_log_and_handler (e e' : Env C) : Prop :=
  episode_trigger_ious e' = episode_trigger_ious e /\
  post_step_handler e' = post_step_handler e.

(** The masked indices and the ground truth are as they were. *)
Definition same_masks (e e' : Env C) : Prop :=
  episode_masked_indices e' = episode_masked_indices e /\
  episode_true_bboxes e' = episode_true_bboxes e.

(** The image [reset] loads for a path: opened, and converted when it is not
    RGB. *)
Definition loaded_image (path : string) : Image :=
  if negb (String.eqb (image_mode (Image_open path)) "RGB")
  then image_convert (Image_open path) "RGB"
  else Image_open path.

(** What holds of the loaded image while [reset] runs. *)
Definition image_opened (path : string) (e : Env C) : Prop :=
  episode_image e = Image_open path.

Definition image_loaded (path : string) (e : Env C) : Prop :=
  episode_image e = loaded_image path.

Definition image_loaded_unmasked (path : string) (e : Env C) : Prop :=
  episode_image e = loaded_image path /\ episode_masked_indices e = [].

(** The indices of the items are at least [s] and strictly increasing. *)
Fixpoint increasing_from (s : nat) (items : list (nat * Box)) : Prop :=
  match items with
  | [] => True
  | p :: rest => (s <= fst p)%nat /\ increasing_from (S (fst p)) rest
  end.

(** [p] is an item the search looks at. *)
Definition unmasked_item (masked : list nat) (p : nat * Box) : Prop :=
  index_in (fst p) masked = false.

(** What the search has found, against the items it went through: [m'] is
    the IoU of the chosen box, no unmasked item has a greater one, the items
    before the chosen one have a smaller one when [m'] is positive, and no
    item comes after the chosen one when [m'] is 0. *)
Definition closest_among (window : Box) (masked : list nat) (items : list (nat * Box))
    (i' : nat) (m' : Q) : Prop :=
  forall p, In p items -> unmasked_item masked p ->
    exists v, compute_iou window (snd p) = Ok v /\ v <= m' /\
              (0 < m' -> (fst p < i')%nat -> v < m') /\
              (m' == 0 -> (fst p <= i')%nat).

(** The field read by [f] is as it was. *)
Definition same_on {X : Type} (f : Env C -> X) (e e' : Env C) : Prop := f e' = f e.

(** The budget test at the end of [step]. *)
Definition budget_spent (cfg : Config) (n : Z) : bool :=
  negb (max_steps_per_image cfg =? -1)%Z && (max_steps_per_image cfg <=? n)%Z.

(** The actions that end the episode by themselves. *)
Definition ends_episode (cfg : Config) (a : Action) : bool :=
  match a with
  | Transform _ => false
  | Trigger => negb (playout_episode cfg)
  | Terminate => true
  end.

(** An episode that was over is still over. *)
Definition done_stays (e e' : Env C) : Prop := done e = true -> done e' = true.

(** The logs have only been appended to, the counters have not decreased and
    the ground truth is the same. *)
Definition logs_grow (e e' : Env C) : Prop :=
  (exists l, episode_pred_bboxes e' = episode_pred_bboxes e ++ l) /\
  (exists l, episode_masked_indices e' = episode_masked_indices e ++ l) /\
  (exists l, episode_trigger_ious e' = episode_trigger_ious e ++ l) /\
  episode_true_bboxes e' = episode_true_bboxes e /\
  (num_triggers_used e <= num_triggers_used e')%Z /\
  (current_step e <= current_step e')%Z.

(** The trigger counter and the predicted boxes have moved together. *)
Definition triggers_counted (e e' : Env C) : Prop :=
  (num_triggers_used e' - Z.of_nat (List.length (episode_pred_bboxes e')) =
   num_triggers_used e - Z.of_nat (List.length (episode_pred_bboxes e)))%Z.

(** The fields of an episode that has just been reset, [t0] being the
    transformer before the reset. *)
Definition fresh_episode (cfg : Config) (t0 : Transformer) (e0 : Env C) : Prop :=
  history e0 = create_empty_history cfg /\
  episode_pred_bboxes e0 = [] /\
  episode_trigger_ious e0 = [] /\
  num_triggers_used e0 = 0%Z /\
  current_step e0 = 0%Z /\
  bbox_transformer e0 =
    transformer_reset (image_width (episode_image e0)) (image_height (episode_image e0))
      t0 /\
  state e0 = compute_state e0 /\
  done e0 = false /\
  compute_best_iou e0 = Ok (iou e0) /\
  max_iou e0 = iou e0.

(** The least number of boxes premasking leaves unmasked. *)
Definition min_unmasked (cfg : Config) : Z :=
  if has_termination_action cfg then 0%Z else 1%Z.


(** The history has [rows] rows of [columns] entries each. *)
Definition history_shape (rows columns : nat) (e : Env C) : Prop :=
  List.length (history e) = rows /\
  Forall (fun row => List.length row = columns) (history e).

(** A handler is registered, or the action registers one. *)
Definition logs_an_iou (e : Env C) (a : Action) : bool :=
  match post_step_handler e with
  | Some _ => true
  | None => Action_eqb a Trigger
  end.

(** The image [img] with the boxes at the indices [masked] marked, in that
    order. *)
Fixpoint mark_all (cfg : Config) (boxes : list Box) (masked : list nat) (img : Image)
    : Image :=
  match masked with
  | [] => img
  | i :: rest =>
      match nth_error boxes i with
      | Some b => mark_all cfg boxes rest (ImageMasker_mask img b (ior_marker_type cfg))
      | None => mark_all cfg boxes rest img
      end
  end.

(** The episode image is [base] with exactly the masked boxes marked. *)
Definition marks_match (cfg : Config) (base : Image) (e : Env C) : Prop :=
  episode_image e =
  mark_all cfg (episode_true_bboxes e) (episode_masked_indices e) base.

(** The marks on the image still match the masked indices, if they did. *)
Definition marks_stay (cfg : Config) (base : Image) (e e' : Env C) : Prop :=
  marks_match cfg base e -> marks_match cfg base e'.

(** A method started where [P] holds, if it returns, returns a value and
    fields that satisfy [Q]. *)
Definition hoare {A : Type} (P : Env C -> Prop) (m : M C A) (Q : A -> Env C -> Prop)
    : Prop :=
  forall e, P e -> forall a e', m e = (Ok a, e') -> Q a e'.

End Specification.

(** ** A small world to run the environment in

    Images are a size and the marks drawn so far; the window is halved towards
    its top-left corner by action 0 and moved right by its own width by
    action 1; random draws come from a list. *)

Record ToyImage : Type := mkToyImage {
  toy_width : Z;
  toy_height : Z;
  toy_marks : list Box
}.

Definition toy_action (i : nat) (w : Box) : Box :=
  match i with
  | O => mkBox (x0 w) (y0 w) ((x0 w + x1 w) / 2) ((y0 w + y1 w) / 2)
  | _ => mkBox (x1 w) (y0 w) (x1 w + (x1 w - x0 w)) (y1 w)
  end.

Definition toy : Collaborators := {|
  Image := ToyImage;
  Image_open := fun _ => mkToyImage 100 100 [];
  image_mode := fun _ => "RGB"%string;
  image_convert := fun i _ => i;
  image_width := toy_width;
  image_height := toy_height;
  ImageMasker_mask := fun i b _ => mkToyImage (toy_width i) (toy_height i) (toy_marks i ++ [b]);
  Warped := (ToyImage * Box)%type;
  crop_resize := pair;
  Transformer := Box;
  n_transformer_actions := 2;
  transformer_action := toy_action;
  transformer_bbox := fun w => w;
  transformer_reset := fun w h _ => mkBox 0 0 (inject_Z w) (inject_Z h);
  scale_bboxes := fun l _ _ => l;
  Rng := list Q;
  rng_randint := fun _ r => (O, r);
  rng_random := fun r => match r with [] => (1, []) | q :: r' => (q, r') end
|}.

(** Episodes in the small world: one image with the given ground truth, four
    actions (two of the transformer, trigger, terminate), no step budget. *)

Definition toy_boxes : list Box := [mkBox 60 60 70 70; mkBox 80 80 90 90].

Definition toy_cfg (mode : string) (playout_episode : bool) (boxes : list Box) : Config :=
  mkConfig mode None false playout_episode (-1) true "cross" 2 ["a"%string] [boxes].

Definition toy_blank : Env toy :=
  @mkEnv toy (mkBox 0 0 1 1) [] None (mkToyImage 1 1 []) [] [] [] [] 0%Z [] 0%Z
    ((mkToyImage 1 1 [], mkBox 0 0 1 1), []) false 0 0.

(** The object after [reset(0)]. *)
Definition toy_start (cfg : Config) : Env toy :=
  snd (@reset toy cfg (Some 0%nat) toy_blank).

(** The object after [reset(0)] and one step of action 0: the window is the
    top-left quarter of the image, away from both boxes of [toy_boxes]. *)
Definition toy_zoomed (cfg : Config) : Env toy :=
  snd (@step toy cfg 0 (toy_start cfg)).

(** An episode with premasking and no termination action, and the blank
    object with a list of random draws to come. *)
Definition toy_premask_cfg : Config :=
  mkConfig "train" None true true 3 false "cross" 2 ["a"%string] [toy_boxes].

Definition toy_blank_draws (draws : list Q) : Env toy :=
  set_np_random (C := toy) draws toy_blank.

(** * Properties *)

(** ** Numbers *)

Lemma Qgtb_true (b a : Q) : Qgtb b a = true <-> a < b.
Proof.
  unfold Qgtb. rewrite negb_true_iff. split; intro H.
  - apply Qnot_le_lt. intro Hle. apply Qle_bool_iff in Hle. congruence.
  - destruct (Qle_bool b a) eqn:E; [|reflexivity].
    apply Qle_bool_iff in E. exfalso. apply (Qlt_not_le _ _ H E).
Qed.

Lemma Qgtb_false (b a : Q) : Qgtb b a = false <-> b <= a.
Proof.
  unfold Qgtb. rewrite negb_false_iff. apply Qle_bool_iff.
Qed.

Lemma Qltb_true (a b : Q) : Qltb a b = true <-> a < b.
Proof. exact (Qgtb_true b a). Qed.

Lemma Qltb_false (a b : Q) : Qltb a b = false <-> b <= a.
Proof. exact (Qgtb_false b a). Qed.

Lemma py_max_cases (a b : Q) :
  (a < b /\ py_max a b = b) \/ (b <= a /\ py_max a b = a).
Proof.
  unfold py_max. destruct (Qgtb b a) eqn:E.
  - left. split; [now apply Qgtb_true | reflexivity].
  - right. split; [now apply Qgtb_false | reflexivity].
Qed.

Lemma py_min_cases (a b : Q) :
  (b < a /\ py_min a b = b) \/ (a <= b /\ py_min a b = a).
Proof.
  unfold py_min. destruct (Qgtb a b) eqn:E.
  - left. split; [now apply Qgtb_true | reflexivity].
  - right. split; [now apply Qgtb_false | reflexivity].
Qed.

Lemma py_max_ge_l (a b : Q) : a <= py_max a b.
Proof. destruct (py_max_cases a b) as [[H ->]|[H ->]]; lra. Qed.

Lemma py_max_ge_r (a b : Q) : b <= py_max a b.
Proof. destruct (py_max_cases a b) as [[H ->]|[H ->]]; lra. Qed.

Lemma py_truediv_ok (a b : Q) : ~ b == 0 -> py_truediv a b = Ok (a / b).
Proof.
  intro H. unfold py_truediv. destruct (Qeq_bool b 0) eqn:E; [|reflexivity].
  apply Qeq_bool_iff in E. contradiction.
Qed.


(** ** Geometry *)

Lemma rect_le (w h W H : Q) :
  0 <= w -> w <= W -> 0 <= h -> h <= H -> 0 <= w * h /\ w * h <= W * H.
Proof. intros. split; nra. Qed.

(** The intersection is a sub-rectangle of both boxes. *)
Lemma compute_intersection_bounds (a b : Box) :
  well_formed a -> well_formed b ->
  0 <= compute_intersection a b /\
  compute_intersection a b <= area a /\
  compute_intersection a b <= area b.
Proof.
  intros [Hax Hay] [Hbx Hby]. unfold compute_intersection, area.
  destruct (Qltb _ _) eqn:E1; simpl.
  - repeat split; nra.
  - destruct (Qltb (py_min (y1 a) (y1 b)) _) eqn:E2; simpl.
    + repeat split; nra.
    + apply Qltb_false in E1, E2.
      destruct (py_max_cases (x0 a) (x0 b)) as [[? Hl]|[? Hl]];
      destruct (py_min_cases (x1 a) (x1 b)) as [[? Hr]|[? Hr]];
      destruct (py_max_cases (y0 a) (y0 b)) as [[? Ht]|[? Ht]];
      destruct (py_min_cases (y1 a) (y1 b)) as [[? Hb]|[? Hb]];
      rewrite Hl, Hr, Ht, Hb in *;
      match goal with
      | |- 0 <= ?w * ?h /\ _ =>
          destruct (rect_le w h (x1 a - x0 a) (y1 a - y0 a)) as [? ?]; try lra;
          destruct (rect_le w h (x1 b - x0 b) (y1 b - y0 b)) as [? ?]; try lra;
          auto
      end.
Qed.

Lemma area_nonneg (b : Box) : well_formed b -> 0 <= area b.
Proof. intros [Hx Hy]. unfold area. nra. Qed.

Lemma compute_iou_unfold (a b : Box) :
  compute_iou a b =
  py_truediv (compute_intersection a b) (area a + area b - compute_intersection a b).
Proof. reflexivity. Qed.





Section Properties.
Context {C : Collaborators}.

Implicit Types (cfg : Config) (e : Env C) (action : Z).

(** ** The action set *)

Lemma action_set_get_contains cfg action a :
  action_set_get cfg action = Ok a -> action_space_contains cfg action = true.
Proof.
  unfold action_set_get, action_space_contains, action_space_n.
  destruct (action <? 0)%Z eqn:Hneg; [discriminate|].
  destruct (nth_error _ _) eqn:Hnth; [|discriminate]. intros _.
  assert (Hlt : (Z.to_nat action < List.length (action_set cfg))%nat).
  { apply nth_error_Some. congruence. }
  apply Z.ltb_ge in Hneg.
  apply andb_true_iff. split; [apply Z.leb_le | apply Z.ltb_lt]; lia.
Qed.

Lemma is_trigger_get cfg action :
  is_trigger cfg action = Ok true -> action_set_get cfg action = Ok Trigger.
Proof.
  unfold is_trigger. destruct (action_set_get cfg action) as [a|x]; [|discriminate].
  destruct a; simpl; intro H; try discriminate; reflexivity.
Qed.

Lemma is_termination_get cfg action :
  is_termination cfg action = Ok true -> action_set_get cfg action = Ok Terminate.
Proof.
  unfold is_termination. destruct (action_set_get cfg action) as [a|x]; [|discriminate].
  destruct a; simpl; intro H; try discriminate; reflexivity.
Qed.

Lemma is_trigger_not_termination cfg action :
  is_trigger cfg action = Ok true -> is_termination cfg action = Ok false.
Proof.
  intro H. apply is_trigger_get in H. unfold is_termination. now rewrite H.
Qed.

Lemma is_termination_not_trigger cfg action :
  is_termination cfg action = Ok true -> is_trigger cfg action = Ok false.
Proof.
  intro H. apply is_termination_get in H. unfold is_trigger. now rewrite H.
Qed.

(** The trigger has the id after the transformer's actions. *)
Lemma action_set_get_trigger cfg :
  action_set_get cfg (Z.of_nat n_transformer_actions) = Ok Trigger.
Proof.
  unfold action_set_get, action_set.
  destruct (Z.of_nat n_transformer_actions <? 0)%Z eqn:E.
  - apply Z.ltb_lt in E. lia.
  - rewrite Nat2Z.id, nth_error_app2; rewrite length_map, length_seq; [|lia].
    now rewrite Nat.sub_diag.
Qed.

(** The termination action, when there is one, has the last id. *)
Lemma action_set_get_terminate cfg :
  has_termination_action cfg = true ->
  action_set_get cfg (Z.of_nat n_transformer_actions + 1) = Ok Terminate.
Proof.
  intro Ht. unfold action_set_get, action_set. rewrite Ht.
  destruct (_ <? 0)%Z eqn:E.
  - apply Z.ltb_lt in E. lia.
  - replace (Z.to_nat (Z.of_nat n_transformer_actions + 1))
      with (S n_transformer_actions) by lia.
    rewrite nth_error_app2; rewrite length_map, length_seq; [|lia].
    replace (S n_transformer_actions - n_transformer_actions)%nat with 1%nat by lia.
    reflexivity.
Qed.

(** ** Reward *)

Lemma calculate_reward_trigger_eq cfg action e :
  is_trigger cfg action = Ok true ->
  calculate_reward cfg action e =
    (Ok (ETA_TRIGGER * iou e - inject_Z (current_step e) * DURATION_PENALTY), e).
Proof.
  intro Ht. pose proof (is_trigger_not_termination _ _ Ht) as Hn.
  unfold calculate_reward, bind, lift, ret, get.
  destruct (has_termination_action cfg); rewrite ?Hn, Ht; reflexivity.
Qed.

(** C5: for the trigger action the reward is
    [ETA_TRIGGER * iou - current_step * DURATION_PENALTY], with [iou] and
    [current_step] as the fields hold them when the reward is computed, and no
    field changes; with [iou = 0.8] at step 3 this is 55.91. *)
Theorem calculate_reward_trigger cfg action e :
  is_trigger cfg action = Ok true ->
  calculate_reward cfg action e =
    (Ok (ETA_TRIGGER * iou e - inject_Z (current_step e) * DURATION_PENALTY), e) /\
  (iou e == 8 # 10 -> current_step e = 3%Z ->
   exists reward, calculate_reward cfg action e = (Ok reward, e) /\ reward == 5591 # 100).
Proof.
  intro Ht. pose proof (is_trigger_not_termination _ _ Ht) as Hn.
  assert (Heq : calculate_reward cfg action e =
    (Ok (ETA_TRIGGER * iou e - inject_Z (current_step e) * DURATION_PENALTY), e)).
  { unfold calculate_reward, bind, lift, ret, get.
    destruct (has_termination_action cfg); rewrite ?Hn, Ht; reflexivity. }
  split; [exact Heq|].
  intros Hiou Hstep. eexists. split; [exact Heq|].
  rewrite Hiou, Hstep. unfold ETA_TRIGGER, DURATION_PENALTY. reflexivity.
Qed.

Lemma inject_length_nonzero {A : Type} (l : list A) :
  l <> [] -> ~ inject_Z (Z.of_nat (List.length l)) == 0.
Proof.
  intros Hl H. destruct l as [|a l]; [congruence|].
  unfold Qeq in H. simpl in H. lia.
Qed.

Lemma calculate_reward_terminate_eq cfg action e :
  has_termination_action cfg = true ->
  is_termination cfg action = Ok true ->
  episode_true_bboxes e <> [] ->
  calculate_reward cfg action e =
    (Ok (if negb (Qeq_bool
                    (inject_Z (num_triggers_used e) /
                     inject_Z (Z.of_nat (List.length (episode_true_bboxes e)))) 1)
         then -1 * ETA_TERMINATION
         else ETA_TERMINATION + inject_Z (current_step e) * DURATION_PENALTY), e).
Proof.
  intros Hh Ht Hne.
  unfold calculate_reward, bind, lift, ret, get. rewrite Hh, Ht.
  rewrite py_truediv_ok by (now apply inject_length_nonzero).
  destruct (negb _); reflexivity.
Qed.

(** C4: with the termination action enabled and at least one ground-truth
    box, the reward of [terminate] is [-ETA_TERMINATION] when
    [num_triggers_used / len(episode_true_bboxes)] differs from 1 and
    [ETA_TERMINATION + current_step * DURATION_PENALTY] when it is 1; with two
    boxes at step 5 that is -10 after one trigger and 10.15 after two. *)
Theorem calculate_reward_terminate cfg action e :
  has_termination_action cfg = true ->
  is_termination cfg action = Ok true ->
  episode_true_bboxes e <> [] ->
  (exists reward,
     calculate_reward cfg action e = (Ok reward, e) /\
     (~ inject_Z (num_triggers_used e) /
        inject_Z (Z.of_nat (List.length (episode_true_bboxes e))) == 1 ->
      reward == - ETA_TERMINATION) /\
     (inject_Z (num_triggers_used e) /
        inject_Z (Z.of_nat (List.length (episode_true_bboxes e))) == 1 ->
      reward == ETA_TERMINATION + inject_Z (current_step e) * DURATION_PENALTY) /\
     (List.length (episode_true_bboxes e) = 2%nat -> current_step e = 5%Z ->
      (num_triggers_used e = 1%Z -> reward == - (10)) /\
      (num_triggers_used e = 2%Z -> reward == 1015 # 100))) /\
  ETA_TERMINATION == 10.
Proof.
  intros Hh Ht Hne. split; [|reflexivity].
  eexists. split; [apply calculate_reward_terminate_eq; assumption|].
  repeat split.
  - intro Hp. destruct (Qeq_bool _ 1) eqn:E.
    + apply Qeq_bool_iff in E. contradiction.
    + simpl. ring.
  - intro Hp. apply Qeq_bool_iff in Hp. rewrite Hp. simpl. reflexivity.
  - intro Hn. rewrite H, H0, Hn. reflexivity.
  - intro Hn. rewrite H, H0, Hn. reflexivity.
Qed.

(** ** step *)

(** C8: an action id outside [0, len(action_set)) fails the assertion of
    [step], and no field of the object has changed. *)
Theorem step_invalid_action cfg action e :
  (action < 0 \/ Z.of_nat (List.length (action_set cfg)) <= action)%Z ->
  step cfg action e = (Raise AssertionError, e).
Proof.
  intro H. unfold step.
  assert (Hc : action_space_contains cfg action = false).
  { unfold action_space_contains, action_space_n. apply andb_false_iff.
    destruct H; [left; apply Z.leb_gt | right; apply Z.ltb_ge]; lia. }
  rewrite Hc. reflexivity.
Qed.

(** C7: with [playout_episode] off, a trigger step returns with [done] set,
    whatever the fields held before; the window is appended to the predicted
    boxes and the trigger counter incremented, while the image, the masked
    indices and the transformer are left as they were. *)
Theorem step_trigger_no_playout cfg action e :
  playout_episode cfg = false ->
  is_trigger cfg action = Ok true ->
  exists obs reward e',
    step cfg action e = (Ok (obs, reward, true), e') /\
    done e' = true /\
    episode_pred_bboxes e' = episode_pred_bboxes e ++ [bbox e] /\
    num_triggers_used e' = (num_triggers_used e + 1)%Z /\
    episode_image e' = episode_image e /\
    episode_masked_indices e' = episode_masked_indices e /\
    bbox_transformer e' = bbox_transformer e.
Proof.
  intros Hp Ht.
  pose proof (is_trigger_get _ _ Ht) as Hg.
  pose proof (action_set_get_contains _ _ _ Hg) as Hc.
  unfold step, call_action, trigger. rewrite Hc, Hp.
  unfold bind, modify, lift, get, ret. rewrite Hg. cbn [negb]. cbv beta iota.
  rewrite (calculate_reward_trigger_eq cfg action _ Ht).
  simpl.
  destruct (negb (max_steps_per_image cfg =? -1)%Z && _); simpl;
    do 3 eexists; repeat split.
Qed.

(** ** Framing: what a method leaves related, whether it returns or raises *)

Section Framing.
Context (R : Env C -> Env C -> Prop) `{!Frame R}.

Lemma preserves_ret {A : Type} (a : A) : preserves R (ret a).
Proof. intro e. apply frame_refl. Qed.

Lemma preserves_raise {A : Type} (x : exn) : preserves R (@raise C A x).
Proof. intro e. apply frame_refl. Qed.

Lemma preserves_get : preserves R get.
Proof. intro e. apply frame_refl. Qed.

Lemma preserves_lift {A : Type} (r : Env C -> result A) : preserves R (lift r).
Proof. intro e. apply frame_refl. Qed.

Lemma preserves_modify (f : Env C -> Env C) :
  (forall e, R e (f e)) -> preserves R (modify f).
Proof. intros H e. apply H. Qed.

Lemma preserves_bind {A B : Type} (m : M C A) (k : A -> M C B) :
  preserves R m -> (forall a, preserves R (k a)) -> preserves R (bind m k).
Proof.
  intros Hm Hk e. unfold bind. specialize (Hm e).
  destruct (m e) as [[a|x] e1]; simpl in *.
  - eapply frame_trans; [exact Hm | apply Hk].
  - exact Hm.
Qed.

End Framing.

Ltac frame_step :=
  match goal with
  | |- preserves _ (ret _) => apply preserves_ret
  | |- preserves _ (raise _) => apply preserves_raise
  | |- preserves _ get => apply preserves_get
  | |- preserves _ (lift _) => apply preserves_lift
  | |- preserves _ (bind _ _) => apply preserves_bind
  | |- preserves _ (modify _) => apply preserves_modify; intros ?
  | |- forall _, preserves _ _ => intros ?
  | |- Frame _ => typeclasses eauto
  | |- preserves _ (if ?c then _ else _) => destruct c
  | |- preserves _ (match ?x with _ => _ end) => destruct x
  end.

Ltac frame := repeat frame_step.

(** ** The running maximum *)

#[local] Instance max_iou_le_frame : Frame max_iou_le.
Proof.
  split; unfold max_iou_le; intros.
  - apply Qle_refl.
  - eapply Qle_trans; eassumption.
Qed.

Lemma step_max_iou_le cfg action : preserves max_iou_le (step cfg action).
Proof.
  unfold step, call_action, trigger, terminate, calculate_reward, run_handler,
    _register_trigger_iou, create_ior_mark.
  frame; unfold max_iou_le; simpl; try apply Qle_refl.
  apply py_max_ge_r.
Qed.

(** C9: over any run of [step] calls on one episode, those that return and
    those that raise alike, [max_iou] after the run is at least [max_iou]
    before it; a single step is the run of length one. *)
Theorem steps_max_iou_nondecreasing cfg (actions : list Z) e :
  max_iou e <= max_iou (steps cfg actions e) /\
  forall action, max_iou e <= max_iou (snd (step cfg action e)).
Proof.
  split; [|intro action; apply (step_max_iou_le cfg action e)].
  revert e. induction actions as [|a rest IH]; intro e; simpl.
  - apply Qle_refl.
  - eapply Qle_trans; [apply (step_max_iou_le cfg a e) | apply IH].
Qed.

(** ** Unmasked boxes and the search for the closest one *)

Lemma unmasked_fold (masked : list nat) (items : list (nat * Box)) (acc : list Box) :
  fold_left
    (fun bboxes_unmasked '(index, bbox) =>
       if negb (index_in index masked) then bboxes_unmasked ++ [bbox]
       else bboxes_unmasked) items acc =
  acc ++ map snd (filter (fun p => negb (index_in (fst p) masked)) items).
Proof.
  revert acc. induction items as [|[i b] items IH]; intro acc; simpl.
  - now rewrite app_nil_r.
  - rewrite IH. destruct (negb (index_in i masked)); simpl; [|reflexivity].
    now rewrite <- app_assoc.
Qed.

Lemma episode_true_bboxes_unmasked_filter e :
  episode_true_bboxes_unmasked e =
  map snd (filter (fun p => negb (index_in (fst p) (episode_masked_indices e)))
             (enumerate (episode_true_bboxes e))).
Proof. unfold episode_true_bboxes_unmasked. now rewrite unmasked_fold. Qed.

Lemma enumerate_snd {A : Type} (l : list A) : map snd (enumerate l) = l.
Proof.
  unfold enumerate. generalize 0%nat. induction l as [|a l IH]; intro n; simpl.
  - reflexivity.
  - now rewrite IH.
Qed.

Lemma enumerate_In {A : Type} (l : list A) (i : nat) (a : A) :
  In (i, a) (enumerate l) -> In a l.
Proof. unfold enumerate. apply in_combine_r. Qed.

(** With nothing masked, every ground-truth box is unmasked. *)
Lemma episode_true_bboxes_unmasked_none e :
  episode_masked_indices e = [] ->
  episode_true_bboxes_unmasked e = episode_true_bboxes e.
Proof.
  intro H. rewrite episode_true_bboxes_unmasked_filter, H.
  rewrite <- (enumerate_snd (episode_true_bboxes e)) at 2.
  f_equal. induction (enumerate (episode_true_bboxes e)) as [|p l IH]; simpl.
  - reflexivity.
  - f_equal. exact IH.
Qed.

Lemma closest_loop_filled window masked items acc :
  ious_defined_on window (map snd items) ->
  filled acc ->
  exists acc', closest_loop window masked items acc = Ok acc' /\ filled acc'.
Proof.
  revert acc. induction items as [|[i b] items IH]; intros acc Hd Hf; simpl.
  - eauto.
  - assert (Hd' : ious_defined_on window (map snd items)).
    { intros x Hx. apply Hd. now right. }
    destruct (index_in i masked); [now apply IH|].
    destruct (Hd b) as [v Hv]; [now left|]. rewrite Hv.
    destruct acc as [[m bb] bi].
    destruct (py_not m || _); apply IH; auto.
    now exists v, b, i.
Qed.

Lemma closest_loop_some window masked items :
  ious_defined_on window (map snd items) ->
  filter (fun p => negb (index_in (fst p) masked)) items <> [] ->
  exists acc', closest_loop window masked items (None, None, None) = Ok acc' /\
               filled acc'.
Proof.
  induction items as [|[i b] items IH]; intros Hd Hne; simpl in *.
  - congruence.
  - assert (Hd' : ious_defined_on window (map snd items)).
    { intros x Hx. apply Hd. now right. }
    destruct (index_in i masked); simpl in Hne; [now apply IH|].
    destruct (Hd b) as [v Hv]; [now left|]. rewrite Hv. simpl.
    apply closest_loop_filled; [exact Hd'|]. now exists v, b, i.
Qed.

(** When every IoU is a number the trigger returns. *)
Lemma trigger_ok cfg e :
  ious_defined e -> exists e', trigger cfg e = (Ok tt, e').
Proof.
  intro Hd. unfold trigger, bind, modify, get, lift, ret, create_ior_mark.
  destruct (negb (playout_episode cfg)); [eauto|].
  destruct (String.eqb (mode cfg) "train"); [|unfold modify; eauto].
  cbv beta iota.
  destruct (0 <? _)%nat eqn:Hlen; [|eauto].
  unfold closest_unmasked_true_bbox.
  destruct (closest_loop_some (bbox e) (episode_masked_indices e)
              (enumerate (episode_true_bboxes e))) as (acc & Hacc & v & b & i & ->).
  - rewrite enumerate_snd. exact Hd.
  - rewrite episode_true_bboxes_unmasked_filter in Hlen. simpl in Hlen.
    intro Hnil. rewrite Hnil in Hlen. discriminate.
  - simpl. simpl in Hacc. unfold bbox in *. simpl. rewrite Hacc. eauto.
Qed.

(** ** The trigger's IoU log *)

#[local] Instance same_iou_log_frame : Frame same_iou_log.
Proof.
  split; unfold same_iou_log.
  - intuition.
  - intros e1 e2 e3 (A1 & A2 & A3) (B1 & B2 & B3). repeat split; congruence.
Qed.

Lemma trigger_same_iou_log cfg : preserves same_iou_log (trigger cfg).
Proof.
  unfold trigger, create_ior_mark. frame; unfold same_iou_log; simpl; auto.
Qed.

Lemma trigger_registers_handler cfg e :
  post_step_handler (snd (trigger cfg e)) = Some register_trigger_iou_handler.
Proof.
  unfold trigger, bind, modify, get, lift, ret, raise, create_ior_mark.
  destruct (negb (playout_episode cfg)); [reflexivity|].
  destruct (String.eqb (mode cfg) "train"); [|reflexivity].
  cbv beta iota.
  destruct (0 <? _)%nat; [|reflexivity].
  destruct (closest_unmasked_true_bbox _) as [[[i|] [b|]]|x]; reflexivity.
Qed.

(** What [step] does once the trigger has returned. *)
Lemma step_trigger_after cfg action e :
  is_trigger cfg action = Ok true ->
  forall e2,
    trigger cfg (set_current_step (current_step e + 1)%Z e) = (Ok tt, e2) ->
    exists obs d e',
      step cfg action e =
        (Ok (obs, ETA_TRIGGER * iou e - inject_Z (current_step e + 1) * DURATION_PENALTY, d),
         e') /\
      episode_trigger_ious e' = episode_trigger_ious e ++ [iou e] /\
      iou e' = iou e /\
      post_step_handler e' = None.
Proof.
  intros Ht e2 Htr.
  pose proof (is_trigger_get _ _ Ht) as Hg.
  pose proof (action_set_get_contains _ _ _ Hg) as Hc.
  pose proof (trigger_same_iou_log cfg (set_current_step (current_step e + 1)%Z e))
    as (Hi & Hl & Hs).
  pose proof (trigger_registers_handler cfg (set_current_step (current_step e + 1)%Z e))
    as Hh.
  rewrite Htr in Hi, Hl, Hs, Hh. simpl in Hi, Hl, Hs, Hh.
  unfold step, call_action. rewrite Hc.
  unfold bind, modify, lift, get, ret. rewrite Hg. cbn [negb]. cbv beta iota.
  rewrite Htr.
  rewrite (calculate_reward_trigger_eq cfg action _ Ht).
  simpl. rewrite Hh. simpl. rewrite Hi, Hl, Hs.
  destruct (negb (max_steps_per_image cfg =? -1)%Z && _); simpl;
    do 3 eexists; repeat split; simpl; exact Hi.
Qed.

(** *** A step without a trigger leaves the log alone *)

Lemma bind_unfold {A B : Type} (m : M C A) (k : A -> M C B) e :
  bind m k e =
  match m e with
  | (Ok a, e') => k a e'
  | (Raise x, e') => (Raise x, e')
  end.
Proof. reflexivity. Qed.

Lemma bind_modify {B : Type} (f : Env C -> Env C) (k : unit -> M C B) e :
  bind (modify f) k e = k tt (f e).
Proof. reflexivity. Qed.

Lemma bind_get {B : Type} (k : Env C -> M C B) e : bind get k e = k e e.
Proof. reflexivity. Qed.

#[local] Instance same_log_and_handler_frame : Frame same_log_and_handler.
Proof.
  split; unfold same_log_and_handler.
  - intuition.
  - intros e1 e2 e3 (A1 & A2) (B1 & B2). split; congruence.
Qed.

Lemma call_action_same_log cfg action :
  is_trigger cfg action <> Ok true ->
  preserves same_log_and_handler (call_action cfg action).
Proof.
  intro Hn. unfold call_action, is_trigger in *.
  destruct (action_set_get cfg action) as [[i| |]|x]; intro e.
  - split; reflexivity.
  - simpl in Hn. congruence.
  - split; reflexivity.
  - apply frame_refl.
Qed.

Lemma calculate_reward_same_log cfg action :
  preserves same_log_and_handler (calculate_reward cfg action).
Proof.
  unfold calculate_reward. frame. split; reflexivity.
Qed.

Lemma step_without_trigger_keeps_log cfg action e :
  post_step_handler e = None ->
  is_trigger cfg action <> Ok true ->
  episode_trigger_ious (snd (step cfg action e)) = episode_trigger_ious e.
Proof.
  intros Hnone Hn. unfold step.
  destruct (negb (action_space_contains cfg action)); [reflexivity|].
  rewrite bind_modify, bind_unfold.
  pose proof (call_action_same_log cfg action Hn
                (set_current_step (current_step e + 1)%Z e)) as [Hl1 Hh1].
  destruct (call_action cfg action _) as [[[]|x] e1]; simpl in Hl1, Hh1;
    [|exact Hl1].
  rewrite bind_unfold.
  pose proof (calculate_reward_same_log cfg action e1) as [Hl2 Hh2].
  destruct (calculate_reward cfg action e1) as [[reward|x] e2]; simpl in Hl2, Hh2;
    [|simpl; congruence].
  rewrite !bind_modify, bind_get. cbn [post_step_handler set_state set_history set_max_iou].
  rewrite Hh2, Hh1, Hnone. unfold bind, ret, get, modify.
  destruct (negb (max_steps_per_image cfg =? -1)%Z && _); simpl; congruence.
Qed.

(** C3: on a trigger step that returns, the value appended to
    [episode_trigger_ious] is appended by that very call, by the handler the
    trigger registered, which is then cleared; it is the [iou] the reward of
    the step was computed from, and a following step that is no trigger
    appends nothing.  The step returns whenever every IoU of the window
    against a ground-truth box is a number. *)
Theorem step_trigger_logs_iou cfg action e :
  is_trigger cfg action = Ok true ->
  (forall obs reward d e',
     step cfg action e = (Ok (obs, reward, d), e') ->
     episode_trigger_ious e' = episode_trigger_ious e ++ [iou e] /\
     reward = ETA_TRIGGER * iou e - inject_Z (current_step e + 1) * DURATION_PENALTY /\
     iou e' = iou e /\
     post_step_handler e' = None /\
     forall next, is_trigger cfg next <> Ok true ->
       episode_trigger_ious (snd (step cfg next e')) = episode_trigger_ious e') /\
  (ious_defined e ->
   exists obs reward d e', step cfg action e = (Ok (obs, reward, d), e')).
Proof.
  intro Ht. split.
  - intros obs reward d e' Hstep.
    destruct (trigger cfg (set_current_step (current_step e + 1)%Z e))
      as [[[]|x] e2] eqn:Htr.
    + destruct (step_trigger_after cfg action e Ht e2 Htr)
        as (obs' & d' & e'' & Hs & Hl & Hi & Hh).
      rewrite Hs in Hstep. inversion Hstep; subst. repeat split; auto.
      intros next Hn. now apply step_without_trigger_keeps_log.
    + pose proof (is_trigger_get _ _ Ht) as Hg.
      pose proof (action_set_get_contains _ _ _ Hg) as Hc.
      unfold step, call_action in Hstep. rewrite Hc in Hstep.
      unfold bind, modify, lift, get, ret in Hstep. rewrite Hg in Hstep.
      cbn [negb] in Hstep. cbv beta iota in Hstep. rewrite Htr in Hstep.
      discriminate.
  - intro Hd.
    destruct (trigger_ok cfg (set_current_step (current_step e + 1)%Z e) Hd)
      as [e2 Htr].
    destruct (step_trigger_after cfg action e Ht e2 Htr)
      as (obs' & d' & e'' & Hs & _).
    eauto.
Qed.

(** ** Terminating with no ground truth *)

Lemma calculate_reward_terminate_empty cfg action e :
  has_termination_action cfg = true ->
  is_termination cfg action = Ok true ->
  episode_true_bboxes e = [] ->
  calculate_reward cfg action e = (Raise ZeroDivisionError, e).
Proof.
  intros Hh Ht Hnil.
  unfold calculate_reward, bind, lift, ret, get. rewrite Hh, Ht, Hnil.
  reflexivity.
Qed.

(** C6, as the code has it: with the termination action enabled and no
    ground-truth box, [terminate] is not guarded; the step counts itself, sets
    [done], and the division by the number of boxes raises
    [ZeroDivisionError] to the caller, so no reward and no NaN is returned. *)
Theorem step_terminate_empty_ground_truth cfg action e :
  has_termination_action cfg = true ->
  is_termination cfg action = Ok true ->
  episode_true_bboxes e = [] ->
  step cfg action e =
    (Raise ZeroDivisionError,
     set_done true (set_current_step (current_step e + 1)%Z e)).
Proof.
  intros Hh Ht Hnil.
  pose proof (is_termination_get _ _ Ht) as Hg.
  pose proof (action_set_get_contains _ _ _ Hg) as Hc.
  unfold step, call_action, terminate. rewrite Hc. cbn [negb].
  rewrite bind_modify, bind_unfold.
  unfold bind at 1, lift at 1. rewrite Hg. unfold modify at 1.
  rewrite bind_unfold.
  rewrite (calculate_reward_terminate_empty cfg action _ Hh Ht) by exact Hnil.
  reflexivity.
Qed.

(** ** Evaluation mode *)

#[local] Instance same_masks_frame : Frame same_masks.
Proof.
  split; unfold same_masks.
  - intuition.
  - intros e1 e2 e3 (A1 & A2) (B1 & B2). split; congruence.
Qed.

Lemma mode_not_train cfg :
  mode cfg <> "train"%string -> String.eqb (mode cfg) "train" = false.
Proof. intro H. now apply String.eqb_neq. Qed.

Lemma step_eval_same_masks cfg action :
  mode cfg <> "train"%string -> preserves same_masks (step cfg action).
Proof.
  intro Hm. apply mode_not_train in Hm.
  unfold step, call_action, trigger, terminate, calculate_reward, run_handler,
    _register_trigger_iou, create_ior_mark.
  rewrite Hm.
  frame; split; reflexivity.
Qed.

Lemma steps_eval_same_masks cfg (actions : list Z) e :
  mode cfg <> "train"%string -> same_masks e (steps cfg actions e).
Proof.
  intro Hm. revert e. induction actions as [|a rest IH]; intro e; simpl.
  - apply frame_refl.
  - eapply frame_trans; [apply (step_eval_same_masks cfg a Hm e) | apply IH].
Qed.

(** In evaluation mode with play-out, a trigger step always returns; it marks
    the image at the window and masks no index. *)
Lemma step_trigger_eval cfg action e :
  mode cfg <> "train"%string ->
  playout_episode cfg = true ->
  is_trigger cfg action = Ok true ->
  exists obs reward d e',
    step cfg action e = (Ok (obs, reward, d), e') /\
    episode_image e' =
      ImageMasker_mask (episode_image e) (bbox e) (ior_marker_type cfg) /\
    episode_masked_indices e' = episode_masked_indices e.
Proof.
  intros Hm Hp Ht. apply mode_not_train in Hm.
  assert (Htr : exists e2,
    trigger cfg (set_current_step (current_step e + 1)%Z e) = (Ok tt, e2) /\
    episode_image e2 =
      ImageMasker_mask (episode_image e) (bbox e) (ior_marker_type cfg) /\
    episode_masked_indices e2 = episode_masked_indices e).
  { unfold trigger, create_ior_mark. rewrite Hm, Hp.
    unfold bind, modify, get. simpl. eexists. repeat split. }
  destruct Htr as (e2 & Htr & Himg & Hmask).
  pose proof (is_trigger_get _ _ Ht) as Hg.
  pose proof (action_set_get_contains _ _ _ Hg) as Hc.
  pose proof (trigger_registers_handler cfg (set_current_step (current_step e + 1)%Z e))
    as Hh.
  rewrite Htr in Hh. simpl in Hh.
  unfold step, call_action. rewrite Hc.
  unfold bind, modify, lift, get, ret. rewrite Hg. cbn [negb]. cbv beta iota.
  rewrite Htr.
  rewrite (calculate_reward_trigger_eq cfg action _ Ht).
  simpl. rewrite Hh. simpl.
  destruct (negb (max_steps_per_image cfg =? -1)%Z && _); simpl;
    do 4 eexists; repeat split; simpl; assumption.
Qed.

(** *** Pre- and postconditions through [bind] *)

Lemma hoare_bind {A B : Type} (Q1 : A -> Env C -> Prop) (P : Env C -> Prop)
    (m : M C A) (k : A -> M C B) (Q : B -> Env C -> Prop) :
  hoare P m Q1 -> (forall a, hoare (Q1 a) (k a) Q) -> hoare P (bind m k) Q.
Proof.
  intros Hm Hk e HP b e' Hb. unfold bind in Hb.
  destruct (m e) as [[a|x] e1] eqn:Hme; [|discriminate].
  exact (Hk a e1 (Hm e HP a e1 Hme) b e' Hb).
Qed.

Lemma hoare_modify (P : Env C -> Prop) (f : Env C -> Env C) (Q : unit -> Env C -> Prop) :
  (forall e, P e -> Q tt (f e)) -> hoare P (modify f) Q.
Proof. intros H e HP a e' Heq. inversion Heq; subst. now apply H. Qed.

Lemma hoare_lift {A : Type} (P : Env C -> Prop) (r : Env C -> result A)
    (Q : A -> Env C -> Prop) :
  (forall e a, P e -> r e = Ok a -> Q a e) -> hoare P (lift r) Q.
Proof. intros H e HP a e' Heq. inversion Heq; subst. now apply H. Qed.

Lemma hoare_get (P : Env C -> Prop) (Q : Env C -> Env C -> Prop) :
  (forall e, P e -> Q e e) -> hoare P get Q.
Proof. intros H e HP a e' Heq. inversion Heq; subst. now apply H. Qed.

Lemma hoare_ret {A : Type} (P : Env C -> Prop) (a : A) (Q : A -> Env C -> Prop) :
  (forall e, P e -> Q a e) -> hoare P (ret a) Q.
Proof. intros H e HP a' e' Heq. inversion Heq; subst. now apply H. Qed.

Lemma hoare_raise {A : Type} (P : Env C -> Prop) (x : exn) (Q : A -> Env C -> Prop) :
  hoare P (@raise C A x) Q.
Proof. intros e HP a e' Heq. discriminate. Qed.

(** One step of a sequence that keeps the assertion [I]. *)
Ltac hoare_keep I :=
  eapply (hoare_bind (fun _ => I)); [ | intros ? ].

(** A [reset] that returns in evaluation mode has skipped premasking. *)
Lemma reset_eval cfg (image_index : option nat) e obs e0 :
  mode cfg <> "train"%string ->
  reset cfg image_index e = (Ok obs, e0) ->
  episode_masked_indices e0 = [] /\
  exists i path,
    py_index (image_paths cfg) i = Ok path /\
    episode_image e0 = loaded_image path.
Proof.
  intros Hm Hr. apply mode_not_train in Hm.
  assert (H : hoare (fun _ => True) (reset cfg image_index)
                (fun _ e0 =>
                   episode_masked_indices e0 = [] /\
                   exists i path,
                     py_index (image_paths cfg) i = Ok path /\
                     episode_image e0 = loaded_image path));
    [|exact (H e I obs e0 Hr)].
  clear Hr. unfold reset. rewrite Hm. cbn [andb].
  hoare_keep (fun _ : Env C => True).
  { apply hoare_modify. auto. }
  apply (hoare_bind (fun (_ : nat) (_ : Env C) => True)).
  { destruct image_index as [i|]; [apply hoare_ret; auto|].
    apply (hoare_bind (fun (_ _ : Env C) => True)); [apply hoare_get; auto|].
    intro e1. destruct (rng_randint _ _) as [i rng].
    hoare_keep (fun _ : Env C => True); [apply hoare_modify; auto|].
    apply hoare_ret; auto. }
  intro i.
  apply (hoare_bind (fun path (_ : Env C) => py_index (image_paths cfg) i = Ok path)).
  { apply hoare_lift. auto. }
  intro path.
  apply (hoare_bind (fun _ e1 => py_index (image_paths cfg) i = Ok path /\
                                 image_opened path e1)).
  { apply hoare_modify. intros e1 Hp. split; [exact Hp | reflexivity]. }
  intros _.
  apply (hoare_bind (fun (_ : list Box) e1 =>
           py_index (image_paths cfg) i = Ok path /\ image_opened path e1)).
  { apply hoare_lift. auto. }
  intro bboxes.
  hoare_keep (fun e1 : Env C =>
    py_index (image_paths cfg) i = Ok path /\ image_opened path e1).
  { apply hoare_modify. intros e1 [Hp Hi]. split; [exact Hp | exact Hi]. }
  hoare_keep (fun e1 : Env C =>
    py_index (image_paths cfg) i = Ok path /\ image_opened path e1).
  { destruct (bbox_scaling cfg) as [f|]; [destruct (negb (Qeq_bool f 1))|];
      [apply hoare_modify | apply hoare_ret | apply hoare_ret];
      intros e1 [Hp Hi]; (split; [exact Hp | exact Hi]). }
  apply (hoare_bind (fun e1 e2 =>
           py_index (image_paths cfg) i = Ok path /\ image_opened path e1 /\ e2 = e1)).
  { apply hoare_get. intros e1 [Hp Hi]. auto. }
  intro e1.
  hoare_keep (fun e2 : Env C =>
    py_index (image_paths cfg) i = Ok path /\ image_loaded path e2).
  { destruct (negb (String.eqb (image_mode (episode_image e1)) "RGB")) eqn:Ergb;
      [apply hoare_modify | apply hoare_ret];
      intros e2 (Hp & Hi & ->); (split; [exact Hp|]);
      unfold image_loaded, image_opened, loaded_image in *;
      rewrite Hi in Ergb; rewrite Ergb; simpl; congruence. }
  hoare_keep (fun e2 : Env C =>
    py_index (image_paths cfg) i = Ok path /\ image_loaded_unmasked path e2).
  { apply hoare_modify. intros e2 [Hp Hi]. split; [exact Hp|].
    split; [exact Hi | reflexivity]. }
  repeat (hoare_keep (fun e2 : Env C =>
            py_index (image_paths cfg) i = Ok path /\ image_loaded_unmasked path e2);
          [first [apply hoare_modify | apply hoare_ret];
           intros e2 [Hp [Hi Hk]]; (split; [exact Hp|]); split; [exact Hi | exact Hk]|]).
  apply (hoare_bind (fun (_ : Q) (e2 : Env C) =>
           py_index (image_paths cfg) i = Ok path /\ image_loaded_unmasked path e2)).
  { apply hoare_lift. auto. }
  intro v.
  repeat (hoare_keep (fun e2 : Env C =>
            py_index (image_paths cfg) i = Ok path /\ image_loaded_unmasked path e2);
          [apply hoare_modify;
           intros e2 [Hp [Hi Hk]]; (split; [exact Hp|]); split; [exact Hi | exact Hk]|]).
  apply (hoare_bind (fun (_ e2 : Env C) =>
           py_index (image_paths cfg) i = Ok path /\ image_loaded_unmasked path e2)).
  { apply hoare_get. auto. }
  intro e2. apply hoare_ret. intros e3 [Hp [Hi Hk]].
  split; [exact Hk|]. exists i, path. split; [exact Hp | exact Hi].
Qed.

(** C10: in evaluation mode with play-out, a [reset] that returns has masked
    nothing and left the loaded image unmarked; a trigger step marks the image
    at the window and adds no index to [episode_masked_indices]; so after any
    run of steps that starts with no index masked, none is masked, and
    [compute_best_iou] still ranges over every ground-truth box. *)
Theorem eval_mode_masks_no_index cfg :
  mode cfg <> "train"%string ->
  playout_episode cfg = true ->
  (forall image_index e obs e0,
     reset cfg image_index e = (Ok obs, e0) ->
     episode_masked_indices e0 = [] /\
     exists i path,
       py_index (image_paths cfg) i = Ok path /\
       episode_image e0 = loaded_image path) /\
  (forall action e,
     is_trigger cfg action = Ok true ->
     exists obs reward d e',
       step cfg action e = (Ok (obs, reward, d), e') /\
       episode_image e' =
         ImageMasker_mask (episode_image e) (bbox e) (ior_marker_type cfg) /\
       episode_masked_indices e' = episode_masked_indices e) /\
  (forall (actions : list Z) e,
     episode_masked_indices e = [] ->
     episode_masked_indices (steps cfg actions e) = [] /\
     episode_true_bboxes (steps cfg actions e) = episode_true_bboxes e /\
     episode_true_bboxes_unmasked (steps cfg actions e) = episode_true_bboxes e /\
     compute_best_iou (steps cfg actions e) =
       best_iou_loop (bbox (steps cfg actions e)) (episode_true_bboxes e) 0).
Proof.
  intros Hm Hp. repeat split.
  - eapply reset_eval; eassumption.
  - eapply reset_eval; eassumption.
  - intros action e Ht. now apply step_trigger_eval.
  - destruct (steps_eval_same_masks cfg actions e Hm) as [H1 H2]. congruence.
  - destruct (steps_eval_same_masks cfg actions e Hm) as [H1 H2]. congruence.
  - destruct (steps_eval_same_masks cfg actions e Hm) as [H1 H2].
    rewrite episode_true_bboxes_unmasked_none; congruence.
  - destruct (steps_eval_same_masks cfg actions e Hm) as [H1 H2].
    unfold compute_best_iou.
    rewrite episode_true_bboxes_unmasked_none; congruence.
Qed.

End Properties.

(** * The properties at work in the small world *)

(** C1: the code at an input where the claimed tie-break fails.  In training
    mode with play-out, the window [0, 0, 50, 50] overlaps neither
    ground-truth box, so both have IoU 0, the greatest there is; the search
    returns the box of index 1, not the earlier one, and the trigger step
    masks index 1. *)
Theorem closest_unmasked_true_bbox_zero_tie_takes_last :
  let cfg := toy_cfg "train" true toy_boxes in
  let e := toy_zoomed cfg in
  episode_masked_indices e = [] /\
  episode_true_bboxes e = toy_boxes /\
  (exists v0 v1,
     compute_iou (bbox e) (mkBox 60 60 70 70) = Ok v0 /\ v0 == 0 /\
     compute_iou (bbox e) (mkBox 80 80 90 90) = Ok v1 /\ v1 == 0) /\
  closest_unmasked_true_bbox e = Ok (Some 1%nat, Some (mkBox 80 80 90 90)) /\
  episode_masked_indices (snd (step (C := toy) cfg 2 e)) = [1%nat].
Proof.
  cbv zeta. split; [vm_compute; reflexivity|]. split; [vm_compute; reflexivity|].
  split.
  - eexists. eexists. split; [vm_compute; reflexivity|].
    split; [vm_compute; reflexivity|].
    split; [vm_compute; reflexivity|]. vm_compute; reflexivity.
  - split; vm_compute; reflexivity.
Qed.

(** C3 at work: the trigger step from the zoomed window logs the IoU the
    object held before the step. *)
Lemma step_trigger_logs_iou_witness :
  let cfg := toy_cfg "train" true toy_boxes in
  let e := toy_zoomed cfg in
  is_trigger (C := toy) cfg 2 = Ok true /\
  exists obs reward d e',
    step (C := toy) cfg 2 e = (Ok (obs, reward, d), e') /\
    episode_trigger_ious e' = episode_trigger_ious e ++ [iou e].
Proof.
  cbv zeta.
  assert (Ht : is_trigger (C := toy) (toy_cfg "train" true toy_boxes) 2 = Ok true)
    by (vm_compute; reflexivity).
  split; [exact Ht|].
  destruct (step_trigger_logs_iou (toy_cfg "train" true toy_boxes) 2
              (toy_zoomed (toy_cfg "train" true toy_boxes)) Ht) as [Hlog Hret].
  destruct Hret as (obs & reward & d & e' & Hstep).
  - intros box Hin. vm_compute in Hin.
    destruct Hin as [<-|[<-|[]]]; eexists; vm_compute; reflexivity.
  - exists obs, reward, d, e'. split; [exact Hstep|].
    exact (proj1 (Hlog obs reward d e' Hstep)).
Defined.

(** C4 at work: two boxes, one trigger used, terminate at step 5. *)
Lemma calculate_reward_terminate_witness :
  let cfg := toy_cfg "train" true toy_boxes in
  let e := set_current_step 5%Z (set_num_triggers_used 1%Z (toy_start cfg)) in
  has_termination_action cfg = true /\
  is_termination (C := toy) cfg 3 = Ok true /\
  episode_true_bboxes e <> [] /\
  exists reward,
    calculate_reward (C := toy) cfg 3 e = (Ok reward, e) /\ reward == - (10).
Proof.
  cbv zeta.
  assert (Hh : has_termination_action (toy_cfg "train" true toy_boxes) = true)
    by reflexivity.
  assert (Ht : is_termination (C := toy) (toy_cfg "train" true toy_boxes) 3 = Ok true)
    by (vm_compute; reflexivity).
  assert (Hne : episode_true_bboxes
                  (set_current_step 5%Z
                     (set_num_triggers_used 1%Z
                        (toy_start (toy_cfg "train" true toy_boxes)))) <> [])
    by (vm_compute; discriminate).
  split; [exact Hh|]. split; [exact Ht|]. split; [exact Hne|].
  destruct (calculate_reward_terminate _ 3 _ Hh Ht Hne)
    as [(reward & Hr & _ & _ & Hex) _].
  exists reward. split; [exact Hr|].
  apply (Hex eq_refl eq_refl). vm_compute; reflexivity.
Defined.

(** C5 at work: a trigger with IoU 0.8 at step 3. *)
Lemma calculate_reward_trigger_witness :
  let cfg := toy_cfg "train" true toy_boxes in
  let e := set_iou (8 # 10) (set_current_step 3%Z (toy_start cfg)) in
  is_trigger (C := toy) cfg 2 = Ok true /\
  exists reward,
    calculate_reward (C := toy) cfg 2 e = (Ok reward, e) /\ reward == 5591 # 100.
Proof.
  cbv zeta.
  assert (Ht : is_trigger (C := toy) (toy_cfg "train" true toy_boxes) 2 = Ok true)
    by (vm_compute; reflexivity).
  split; [exact Ht|].
  apply (proj2 (calculate_reward_trigger (toy_cfg "train" true toy_boxes) 2
                  (set_iou (8 # 10)
                     (set_current_step 3%Z
                        (toy_start (toy_cfg "train" true toy_boxes)))) Ht));
    vm_compute; reflexivity.
Defined.

(** C6, as the specification words it, fails: on an image without ground
    truth the terminate step is not stopped by a guard; it has already counted
    itself and set [done] when the division raises [ZeroDivisionError]. *)
Lemma step_terminate_empty_divides_by_zero :
  let cfg := toy_cfg "train" true [] in
  let e := toy_start cfg in
  has_termination_action cfg = true /\
  episode_true_bboxes e = [] /\
  current_step e = 0%Z /\ done e = false /\
  fst (step (C := toy) cfg 3 e) = Raise ZeroDivisionError /\
  current_step (snd (step (C := toy) cfg 3 e)) = 1%Z /\
  done (snd (step (C := toy) cfg 3 e)) = true.
Proof. cbv zeta. repeat split; vm_compute; reflexivity. Qed.

(** C6 as amended, at work on the same episode. *)
Lemma step_terminate_empty_ground_truth_witness :
  let cfg := toy_cfg "train" true [] in
  let e := toy_start cfg in
  has_termination_action cfg = true /\
  is_termination (C := toy) cfg 3 = Ok true /\
  episode_true_bboxes e = [] /\
  step (C := toy) cfg 3 e =
    (Raise ZeroDivisionError,
     set_done true (set_current_step (current_step e + 1)%Z e)).
Proof.
  cbv zeta.
  assert (Hh : has_termination_action (toy_cfg "train" true []) = true) by reflexivity.
  assert (Ht : is_termination (C := toy) (toy_cfg "train" true []) 3 = Ok true)
    by (vm_compute; reflexivity).
  assert (Hnil : episode_true_bboxes (toy_start (toy_cfg "train" true [])) = [])
    by (vm_compute; reflexivity).
  split; [exact Hh|]. split; [exact Ht|]. split; [exact Hnil|].
  exact (step_terminate_empty_ground_truth _ 3 _ Hh Ht Hnil).
Defined.

(** C7 at work: without play-out the first trigger ends the episode. *)
Lemma step_trigger_no_playout_witness :
  let cfg := toy_cfg "train" false toy_boxes in
  let e := toy_zoomed cfg in
  playout_episode cfg = false /\
  is_trigger (C := toy) cfg 2 = Ok true /\
  exists obs reward e',
    step (C := toy) cfg 2 e = (Ok (obs, reward, true), e') /\
    done e' = true /\
    episode_pred_bboxes e' = episode_pred_bboxes e ++ [bbox e] /\
    episode_image e' = episode_image e /\
    episode_masked_indices e' = episode_masked_indices e.
Proof.
  cbv zeta.
  assert (Hp : playout_episode (toy_cfg "train" false toy_boxes) = false) by reflexivity.
  assert (Ht : is_trigger (C := toy) (toy_cfg "train" false toy_boxes) 2 = Ok true)
    by (vm_compute; reflexivity).
  split; [exact Hp|]. split; [exact Ht|].
  destruct (step_trigger_no_playout _ 2
              (toy_zoomed (toy_cfg "train" false toy_boxes)) Hp Ht)
    as (obs & reward & e' & Hs & Hd & Hb & _ & Hi & Hm & _).
  exists obs, reward, e'. repeat split; assumption.
Defined.

(** C8 at work: the small world has four actions; 4 and -1 are refused. *)
Lemma step_invalid_action_witness :
  let cfg := toy_cfg "train" true toy_boxes in
  let e := toy_zoomed cfg in
  (Z.of_nat (List.length (action_set (C := toy) cfg)) <= 4)%Z /\
  step (C := toy) cfg 4 e = (Raise AssertionError, e) /\
  step (C := toy) cfg (-1) e = (Raise AssertionError, e).
Proof.
  cbv zeta.
  assert (H4 : (Z.of_nat (List.length (action_set (C := toy)
                   (toy_cfg "train" true toy_boxes))) <= 4)%Z)
    by (vm_compute; discriminate).
  split; [exact H4|]. split.
  - apply step_invalid_action. right. exact H4.
  - apply step_invalid_action. left. reflexivity.
Defined.

(** C10 at work: an evaluation episode with play-out. *)
Lemma eval_mode_masks_no_index_witness :
  let cfg := toy_cfg "eval" true toy_boxes in
  mode cfg <> "train"%string /\
  playout_episode cfg = true /\
  episode_masked_indices (toy_start cfg) = [] /\
  forall actions : list Z,
    episode_masked_indices (steps (C := toy) cfg actions (toy_start cfg)) = [] /\
    episode_true_bboxes_unmasked (steps (C := toy) cfg actions (toy_start cfg)) =
      toy_boxes.
Proof.
  cbv zeta.
  assert (Hm : mode (toy_cfg "eval" true toy_boxes) <> "train"%string)
    by (vm_compute; discriminate).
  assert (Hp : playout_episode (toy_cfg "eval" true toy_boxes) = true) by reflexivity.
  assert (H0 : episode_masked_indices (toy_start (toy_cfg "eval" true toy_boxes)) = [])
    by (vm_compute; reflexivity).
  split; [exact Hm|]. split; [exact Hp|]. split; [exact H0|].
  intro actions.
  destruct (eval_mode_masks_no_index (C := toy) _ Hm Hp) as (_ & _ & Hrun).
  destruct (Hrun actions _ H0) as (H1 & _ & H3 & _).
  split; [exact H1|]. rewrite H3. vm_compute; reflexivity.
Defined.

(** * Further properties of the geometry *)

Lemma py_max_sym (a b : Q) : py_max a b == py_max b a.
Proof.
  destruct (py_max_cases a b) as [[H ->]|[H ->]];
  destruct (py_max_cases b a) as [[H' ->]|[H' ->]]; lra.
Qed.

Lemma py_min_sym (a b : Q) : py_min a b == py_min b a.
Proof.
  destruct (py_min_cases a b) as [[H ->]|[H ->]];
  destruct (py_min_cases b a) as [[H' ->]|[H' ->]]; lra.
Qed.

Lemma py_min_le_l (a b : Q) : py_min a b <= a.
Proof. destruct (py_min_cases a b) as [[H ->]|[H ->]]; lra. Qed.

Lemma py_min_le_r (a b : Q) : py_min a b <= b.
Proof. destruct (py_min_cases a b) as [[H ->]|[H ->]]; lra. Qed.

(** The two branches of [compute_intersection], by the order of the edges. *)
Lemma compute_intersection_cases (a b : Box) :
  let left := py_max (x0 a) (x0 b) in
  let top := py_max (y0 a) (y0 b) in
  let right := py_min (x1 a) (x1 b) in
  let bottom := py_min (y1 a) (y1 b) in
  ((right < left \/ bottom < top) /\ compute_intersection a b = 0) \/
  (left <= right /\ top <= bottom /\
   compute_intersection a b = (right - left) * (bottom - top)).
Proof.
  cbv zeta. unfold compute_intersection.
  destruct (Qltb (py_min (x1 a) (x1 b)) _) eqn:E1; simpl.
  - left. apply Qltb_true in E1. auto.
  - destruct (Qltb (py_min (y1 a) (y1 b)) _) eqn:E2; simpl.
    + left. apply Qltb_true in E2. auto.
    + right. apply Qltb_false in E1, E2. auto.
Qed.

(** X1: The intersection area is never negative, whatever the boxes, and it is 0
    for boxes that do not overlap: one lies left of, right of, above or below
    the other, touching edges included. *)
Theorem compute_intersection_nonneg_disjoint_zero (a b : Box) :
  0 <= compute_intersection a b /\
  (x1 a <= x0 b \/ x1 b <= x0 a \/ y1 a <= y0 b \/ y1 b <= y0 a ->
   compute_intersection a b == 0).
Proof.
  pose proof (py_max_ge_l (x0 a) (x0 b)). pose proof (py_max_ge_r (x0 a) (x0 b)).
  pose proof (py_max_ge_l (y0 a) (y0 b)). pose proof (py_max_ge_r (y0 a) (y0 b)).
  pose proof (py_min_le_l (x1 a) (x1 b)). pose proof (py_min_le_r (x1 a) (x1 b)).
  pose proof (py_min_le_l (y1 a) (y1 b)). pose proof (py_min_le_r (y1 a) (y1 b)).
  destruct (compute_intersection_cases a b) as [[_ ->]|(Hx & Hy & ->)].
  - split; [lra | intros _; reflexivity].
  - split; [nra|].
    intros [Hd|[Hd|[Hd|Hd]]].
    + assert (Hz : py_min (x1 a) (x1 b) - py_max (x0 a) (x0 b) == 0) by lra.
      rewrite Hz. ring.
    + assert (Hz : py_min (x1 a) (x1 b) - py_max (x0 a) (x0 b) == 0) by lra.
      rewrite Hz. ring.
    + assert (Hz : py_min (y1 a) (y1 b) - py_max (y0 a) (y0 b) == 0) by lra.
      rewrite Hz. ring.
    + assert (Hz : py_min (y1 a) (y1 b) - py_max (y0 a) (y0 b) == 0) by lra.
      rewrite Hz. ring.
Qed.

Lemma compute_intersection_nonneg_disjoint_zero_witness :
  x1 (mkBox 0 0 10 10) <= x0 (mkBox 10 0 20 10) /\
  compute_intersection (mkBox 0 0 10 10) (mkBox 10 0 20 10) == 0.
Proof.
  assert (H : x1 (mkBox 0 0 10 10) <= x0 (mkBox 10 0 20 10)) by (simpl; lra).
  split; [exact H|].
  apply (proj2 (compute_intersection_nonneg_disjoint_zero
                  (mkBox 0 0 10 10) (mkBox 10 0 20 10))).
  left. exact H.
Defined.

(** The intersection area does not depend on which box is the window. *)
Lemma compute_intersection_sym (a b : Box) :
  compute_intersection a b == compute_intersection b a.
Proof.
  pose proof (py_max_sym (x0 a) (x0 b)) as Hl.
  pose proof (py_max_sym (y0 a) (y0 b)) as Ht.
  pose proof (py_min_sym (x1 a) (x1 b)) as Hr.
  pose proof (py_min_sym (y1 a) (y1 b)) as Hb.
  destruct (compute_intersection_cases a b) as [[Hc ->]|(Hx & Hy & ->)];
  destruct (compute_intersection_cases b a) as [[Hc' ->]|(Hx' & Hy' & ->)].
  - reflexivity.
  - exfalso. destruct Hc; lra.
  - exfalso. destruct Hc'; lra.
  - rewrite Hl, Ht, Hr, Hb. reflexivity.
Qed.

(** X2: IoU is symmetric: swapping the window and the other box gives the same
    number, or the same [ZeroDivisionError]. *)
Theorem compute_iou_sym (a b : Box) :
  result_Qeq (compute_iou a b) (compute_iou b a).
Proof.
  rewrite !compute_iou_unfold.
  pose proof (compute_intersection_sym a b) as Hi.
  assert (Hu : area a + area b - compute_intersection a b ==
               area b + area a - compute_intersection b a) by (rewrite Hi; ring).
  unfold py_truediv.
  destruct (Qeq_bool (area a + area b - compute_intersection a b) 0) eqn:E1;
  destruct (Qeq_bool (area b + area a - compute_intersection b a) 0) eqn:E2;
    unfold result_Qeq.
  - reflexivity.
  - apply Qeq_bool_iff in E1. apply Qeq_bool_neq in E2. exfalso. apply E2.
    rewrite <- Hu. exact E1.
  - apply Qeq_bool_iff in E2. apply Qeq_bool_neq in E1. exfalso. apply E1.
    rewrite Hu. exact E2.
  - rewrite Hu, Hi. reflexivity.
Qed.

Lemma py_max_self (a : Q) : py_max a a = a.
Proof. unfold py_max. destruct (Qgtb a a); reflexivity. Qed.

Lemma py_min_self (a : Q) : py_min a a = a.
Proof. unfold py_min. destruct (Qgtb a a); reflexivity. Qed.

(** X3: The IoU of a box of positive width and height with itself is 1. *)
Theorem compute_iou_self (a : Box) :
  x0 a < x1 a -> y0 a < y1 a ->
  exists v, compute_iou a a = Ok v /\ v == 1.
Proof.
  intros Hx Hy.
  assert (Hi : compute_intersection a a = area a).
  { unfold compute_intersection, area. rewrite !py_max_self, !py_min_self.
    assert (E1 : Qltb (x1 a) (x0 a) = false) by (apply Qltb_false; lra).
    assert (E2 : Qltb (y1 a) (y0 a) = false) by (apply Qltb_false; lra).
    rewrite E1, E2. reflexivity. }
  assert (Hpos : 0 < area a) by (unfold area; nra).
  rewrite compute_iou_unfold, Hi.
  rewrite py_truediv_ok by lra.
  eexists. split; [reflexivity|]. field. lra.
Qed.

Lemma compute_iou_self_witness :
  exists v, compute_iou (mkBox 2 3 7 9) (mkBox 2 3 7 9) = Ok v /\ v == 1.
Proof.
  apply compute_iou_self; simpl; lra.
Defined.

Lemma compute_iou_nonneg (a b : Box) (v : Q) :
  well_formed a -> well_formed b -> compute_iou a b = Ok v -> 0 <= v.
Proof.
  intros Ha Hb Hv. rewrite compute_iou_unfold in Hv.
  destruct (compute_intersection_bounds a b Ha Hb) as (H0 & H1 & H2).
  pose proof (area_nonneg a Ha). pose proof (area_nonneg b Hb).
  unfold py_truediv in Hv.
  destruct (Qeq_bool _ 0) eqn:E; [discriminate|].
  apply Qeq_bool_neq in E. inversion Hv; subst v; clear Hv.
  apply Qle_shift_div_l; lra.
Qed.

(** X4: For two boxes with [x0 <= x1] and [y0 <= y1], an IoU that is returned
    lies between 0 and 1. *)
Theorem compute_iou_range (a b : Box) (v : Q) :
  well_formed a -> well_formed b ->
  compute_iou a b = Ok v -> 0 <= v /\ v <= 1.
Proof.
  intros Ha Hb Hv. rewrite compute_iou_unfold in Hv.
  destruct (compute_intersection_bounds a b Ha Hb) as (H0 & H1 & H2).
  pose proof (area_nonneg a Ha). pose proof (area_nonneg b Hb).
  unfold py_truediv in Hv.
  destruct (Qeq_bool _ 0) eqn:E; [discriminate|].
  apply Qeq_bool_neq in E. inversion Hv; subst v; clear Hv.
  assert (Hpos : 0 < area a + area b - compute_intersection a b) by lra.
  split.
  - apply Qle_shift_div_l; [exact Hpos | lra].
  - apply Qle_shift_div_r; [exact Hpos | lra].
Qed.

Lemma compute_iou_range_witness :
  well_formed (mkBox 0 0 10 10) /\ well_formed (mkBox 5 5 15 15) /\
  exists v, compute_iou (mkBox 0 0 10 10) (mkBox 5 5 15 15) = Ok v /\
            0 <= v /\ v <= 1.
Proof.
  assert (Ha : well_formed (mkBox 0 0 10 10)) by (unfold well_formed; simpl; lra).
  assert (Hb : well_formed (mkBox 5 5 15 15)) by (unfold well_formed; simpl; lra).
  split; [exact Ha|]. split; [exact Hb|].
  exists (25 # 175). 
  assert (Hv : compute_iou (mkBox 0 0 10 10) (mkBox 5 5 15 15) = Ok (25 # 175))
    by (vm_compute; reflexivity).
  split; [exact Hv|].
  exact (compute_iou_range _ _ _ Ha Hb Hv).
Defined.

(** * Further properties of the episode *)

Section MoreProperties.
Context {C : Collaborators}.

Implicit Types (cfg : Config) (e : Env C) (action : Z).

(** Framing and sequencing, as before. *)
Ltac frame_step :=
  match goal with
  | |- preserves _ (ret _) => apply preserves_ret
  | |- preserves _ (raise _) => apply preserves_raise
  | |- preserves _ get => apply preserves_get
  | |- preserves _ (lift _) => apply preserves_lift
  | |- preserves _ (bind _ _) => apply preserves_bind
  | |- preserves _ (modify _) => apply preserves_modify; intros ?
  | |- forall _, preserves _ _ => intros ?
  | |- Frame _ => typeclasses eauto
  | |- preserves _ (if ?c then _ else _) => destruct c
  | |- preserves _ (match ?x with _ => _ end) => destruct x
  end.

Ltac frame := repeat frame_step.

Ltac hoare_keep I :=
  eapply (hoare_bind (fun _ => I)); [ | intros ? ].

(** ** The best IoU *)

Lemma best_iou_loop_spec (window : Box) (boxes : list Box) (m r : Q) :
  best_iou_loop window boxes m = Ok r ->
  m <= r /\
  (forall box, In box boxes ->
     exists v, compute_iou window box = Ok v /\ v <= r) /\
  (r = m \/ exists box, In box boxes /\ compute_iou window box = Ok r).
Proof.
  revert m. induction boxes as [|b boxes IH]; intros m H; simpl in H.
  - inversion H; subst. split; [lra|]. split; [intros box []|now left].
  - destruct (compute_iou window b) as [v|x] eqn:Hv; [|discriminate].
    destruct (IH _ H) as (Hle & Hall & Hor).
    pose proof (py_max_ge_l m v). pose proof (py_max_ge_r m v).
    split; [lra|]. split.
    + intros box [<-|Hin].
      * exists v. split; [exact Hv | lra].
      * destruct (Hall box Hin) as [w [Hw Hwr]]. exists w. auto.
    + destruct Hor as [->|(box & Hin & Hbox)].
      * destruct (py_max_cases m v) as [[_ ->]|[_ ->]].
        -- right. exists b. split; [now left | exact Hv].
        -- now left.
      * right. exists box. split; [now right | exact Hbox].
Qed.

(** The loop raises exactly when some IoU does. *)
Lemma best_iou_loop_ok (window : Box) (boxes : list Box) (m : Q) :
  ious_defined_on window boxes -> exists r, best_iou_loop window boxes m = Ok r.
Proof.
  revert m. induction boxes as [|b boxes IH]; intros m Hd; simpl.
  - eauto.
  - destruct (Hd b) as [v Hv]; [now left|]. rewrite Hv.
    apply IH. intros box Hin. apply Hd. now right.
Qed.

(** X5: [compute_best_iou], when it returns, returns the greatest IoU of the
    window against the unmasked ground-truth boxes, or 0 when none of them
    reaches above 0; it is 0 when every box is masked, and it returns whenever
    each of these IoUs is a number. *)
Theorem compute_best_iou_is_max e :
  (forall r, compute_best_iou e = Ok r ->
     0 <= r /\
     (forall box, In box (episode_true_bboxes_unmasked e) ->
        exists v, compute_iou (bbox e) box = Ok v /\ v <= r) /\
     (r = 0 \/ exists box, In box (episode_true_bboxes_unmasked e) /\
                           compute_iou (bbox e) box = Ok r)) /\
  (episode_true_bboxes_unmasked e = [] -> compute_best_iou e = Ok 0) /\
  (ious_defined_on (bbox e) (episode_true_bboxes_unmasked e) ->
   exists r, compute_best_iou e = Ok r).
Proof.
  unfold compute_best_iou. split; [|split].
  - intros r H. exact (best_iou_loop_spec _ _ _ _ H).
  - intros ->. reflexivity.
  - apply best_iou_loop_ok.
Qed.

(** ** The search for the closest unmasked box *)

Lemma increasing_from_weaken (s t : nat) (items : list (nat * Box)) :
  (t <= s)%nat -> increasing_from s items -> increasing_from t items.
Proof.
  destruct items as [|p rest]; simpl; [auto|].
  intros Hts [Hs Hr]. split; [lia | exact Hr].
Qed.

Lemma increasing_from_In (s : nat) (items : list (nat * Box)) (p : nat * Box) :
  increasing_from s items -> In p items -> (s <= fst p)%nat.
Proof.
  revert s. induction items as [|q rest IH]; intros s Hinc Hin; simpl in *.
  - contradiction.
  - destruct Hinc as [Hs Hr]. destruct Hin as [<-|Hin]; [exact Hs|].
    specialize (IH _ Hr Hin). lia.
Qed.

Lemma enumerate_from_increasing (l : list Box) (s : nat) :
  increasing_from s (combine (seq s (List.length l)) l).
Proof.
  revert s. induction l as [|b l IH]; intro s; simpl.
  - exact I.
  - split; [lia | apply IH].
Qed.

Lemma combine_seq_In (l : list Box) (s i : nat) (b : Box) :
  In (i, b) (combine (seq s (List.length l)) l) <->
  (s <= i)%nat /\ nth_error l (i - s) = Some b.
Proof.
  revert s. induction l as [|a l IH]; intro s; simpl.
  - split; [contradiction|]. intros [_ H]. destruct (i - s)%nat; discriminate.
  - rewrite IH. split.
    + intros [H|[Hle Hn]].
      * inversion H; subst. split; [lia|]. now rewrite Nat.sub_diag.
      * split; [lia|]. replace (i - s)%nat with (S (i - S s)) by lia. exact Hn.
    + intros [Hle Hn]. destruct (i - s)%nat as [|k] eqn:Ek.
      * left. simpl in Hn. inversion Hn; subst. f_equal. lia.
      * right. split; [lia|]. simpl in Hn. replace (i - S s)%nat with k by lia.
        exact Hn.
Qed.

(** An item of the enumeration is a box at its index. *)
Lemma enumerate_In_iff (l : list Box) (i : nat) (b : Box) :
  In (i, b) (enumerate l) <-> nth_error l i = Some b.
Proof.
  unfold enumerate. rewrite combine_seq_In, Nat.sub_0_r.
  split; [tauto | intro H; split; [lia | exact H]].
Qed.

Lemma closest_loop_from (window : Box) (masked : list nat) (items : list (nat * Box)) :
  forall (i : nat) (b : Box) (m : Q) acc',
    increasing_from (S i) items ->
    (forall p v, In p items -> compute_iou window (snd p) = Ok v -> 0 <= v) ->
    0 <= m ->
    closest_loop window masked items (Some m, Some b, Some i) = Ok acc' ->
    exists i' b' m',
      acc' = (Some m', Some b', Some i') /\ m <= m' /\ (i <= i')%nat /\
      closest_among window masked items i' m' /\
      ((i' = i /\ b' = b /\ m' = m) \/
       (In (i', b') items /\ unmasked_item masked (i', b') /\
        compute_iou window b' = Ok m' /\ (0 < m' -> m < m'))).
Proof.
  induction items as [|[j bj] rest IH]; intros i b m acc' Hinc Hnn Hm Hloop;
    simpl in Hloop.
  - inversion Hloop; subst. exists i, b, m. repeat split; try lra; try lia.
    + intros p [].
    + now left.
  - destruct Hinc as [Hij Hinc]. simpl in Hij.
    assert (Hnn' : forall p v, In p rest -> compute_iou window (snd p) = Ok v -> 0 <= v).
    { intros p v Hp. apply Hnn. now right. }
    assert (Hinc' : increasing_from (S i) rest).
    { apply (increasing_from_weaken (S j)); [lia | exact Hinc]. }
    destruct (index_in j masked) eqn:Hmask.
    + (* a masked item is skipped *)
      destruct (IH i b m acc' Hinc' Hnn' Hm Hloop) as (i' & b' & m' & -> & Hle & Hii & Hall & Hor).
      exists i', b', m'. repeat split; auto.
      * intros p [<-|Hp] Hu; [unfold unmasked_item in Hu; simpl in Hu; congruence|].
        now apply Hall.
      * destruct Hor as [H|(Hin & H)]; [now left | right; split; [now right | exact H]].
    + destruct (compute_iou window bj) as [v|x] eqn:Hv; [|discriminate].
      assert (Hv0 : 0 <= v) by (apply (Hnn (j, bj) v); [now left | exact Hv]).
      unfold py_not in Hloop.
      destruct (Qeq_bool m 0 || Qgtb v m) eqn:Hrep.
      * (* the item replaces the accumulator *)
        assert (Hmv : m <= v /\ (0 < v -> m < v)).
        { apply orb_true_iff in Hrep. destruct Hrep as [Hz|Hgt].
          - apply Qeq_bool_iff in Hz. split; [|intro]; lra.
          - apply Qgtb_true in Hgt. split; [|intro]; lra. }
        destruct (IH j bj v acc' Hinc Hnn' Hv0 Hloop)
          as (i' & b' & m' & -> & Hle & Hii & Hall & Hor).
        exists i', b', m'. split; [reflexivity|]. split; [lra|]. split; [lia|].
        split.
        -- intros p [<-|Hp] Hu; [|now apply Hall].
           simpl. exists v. split; [exact Hv|]. split; [exact Hle|]. split.
           ++ intros Hpos Hlt. destruct Hor as [(-> & _ & _)|(_ & _ & _ & Hgt)];
                [lia | auto].
           ++ intros _. exact Hii.
        -- right. destruct Hor as [(-> & -> & ->)|(Hin & Hu & Hiou & Hgt)].
           ++ split; [now left|]. split; [exact Hmask|]. split; [exact Hv|].
              apply Hmv.
           ++ split; [now right|]. split; [exact Hu|]. split; [exact Hiou|].
              intro Hpos. specialize (Hgt Hpos). lra.
      * (* the accumulator stays *)
        apply orb_false_iff in Hrep. destruct Hrep as [Hz Hgt].
        apply Qeq_bool_neq in Hz. apply Qgtb_false in Hgt.
        destruct (IH i b m acc' Hinc' Hnn' Hm Hloop) as (i' & b' & m' & -> & Hle & Hii & Hall & Hor).
        exists i', b', m'. repeat split; auto.
        -- intros p [<-|Hp] Hu; [|now apply Hall].
           simpl. exists v. split; [exact Hv|]. split; [lra|]. split.
           ++ intros Hpos Hlt. destruct Hor as [(-> & _ & _)|(_ & _ & _ & Hg)];
                [lia | specialize (Hg Hpos); lra].
           ++ intro Hz'. exfalso. apply Hz. lra.
        -- destruct Hor as [H|(Hin & H)]; [now left | right; split; [now right | exact H]].
Qed.

Lemma closest_loop_none (window : Box) (masked : list nat) (items : list (nat * Box)) :
  forall (s : nat) acc',
    increasing_from s items ->
    (forall p v, In p items -> compute_iou window (snd p) = Ok v -> 0 <= v) ->
    closest_loop window masked items (None, None, None) = Ok acc' ->
    (acc' = (None, None, None) /\
     forall p, In p items -> index_in (fst p) masked = true) \/
    (exists i' b' m',
       acc' = (Some m', Some b', Some i') /\
       In (i', b') items /\ unmasked_item masked (i', b') /\
       compute_iou window b' = Ok m' /\
       closest_among window masked items i' m').
Proof.
  induction items as [|[j bj] rest IH]; intros s acc' Hinc Hnn Hloop; simpl in Hloop.
  - left. inversion Hloop; subst. split; [reflexivity | intros p []].
  - destruct Hinc as [Hsj Hinc]. simpl in Hsj.
    assert (Hnn' : forall p v, In p rest -> compute_iou window (snd p) = Ok v -> 0 <= v).
    { intros p v Hp. apply Hnn. now right. }
    destruct (index_in j masked) eqn:Hmask.
    + destruct (IH _ acc' Hinc Hnn' Hloop)
        as [[-> Hall]|(i' & b' & m' & -> & Hin & Hu & Hiou & Hall)].
      * left. split; [reflexivity|]. intros p [<-|Hp]; [exact Hmask | now apply Hall].
      * right. exists i', b', m'. split; [reflexivity|]. split; [now right|].
        split; [exact Hu|]. split; [exact Hiou|].
        intros p [<-|Hp] Hup; [unfold unmasked_item in Hup; simpl in Hup; congruence|].
        now apply Hall.
    + destruct (compute_iou window bj) as [v|x] eqn:Hv; [|discriminate].
      assert (Hv0 : 0 <= v) by (apply (Hnn (j, bj) v); [now left | exact Hv]).
      simpl in Hloop.
      destruct (closest_loop_from window masked rest j bj v acc' Hinc Hnn' Hv0 Hloop)
        as (i' & b' & m' & -> & Hle & Hii & Hall & Hor).
      right. exists i', b', m'. split; [reflexivity|].
      assert (Hsel : In (i', b') ((j, bj) :: rest) /\ unmasked_item masked (i', b') /\
                     compute_iou window b' = Ok m').
      { destruct Hor as [(-> & -> & ->)|(Hin & Hu & Hiou & _)].
        - split; [now left|]. split; [exact Hmask | exact Hv].
        - split; [now right|]. split; [exact Hu | exact Hiou]. }
      destruct Hsel as (Hin & Hu & Hiou).
      split; [exact Hin|]. split; [exact Hu|]. split; [exact Hiou|].
      intros p [<-|Hp] Hup; [|now apply Hall].
      simpl. exists v. split; [exact Hv|]. split; [exact Hle|]. split.
      * intros Hpos Hlt. destruct Hor as [(-> & _ & _)|(_ & _ & _ & Hgt)];
          [lia | auto].
      * intros _. exact Hii.
Qed.

Lemma filter_nil_all {A : Type} (f : A -> bool) (l : list A) :
  filter f l = [] <-> forall a, In a l -> f a = false.
Proof.
  induction l as [|x l IH]; simpl.
  - split; [intros _ a [] | reflexivity].
  - destruct (f x) eqn:E.
    + split; [discriminate|]. intro H. specialize (H x (or_introl eq_refl)). congruence.
    + rewrite IH. split.
      * intros H a [<-|Ha]; auto.
      * intros H a Ha. apply H. now right.
Qed.

Lemma closest_loop_nonneg e :
  well_formed (bbox e) ->
  Forall well_formed (episode_true_bboxes e) ->
  forall p v, In p (enumerate (episode_true_bboxes e)) ->
    compute_iou (bbox e) (snd p) = Ok v -> 0 <= v.
Proof.
  intros Hw Hgt [j bj] v Hp Hv. simpl in Hv.
  apply enumerate_In in Hp. rewrite Forall_forall in Hgt.
  exact (compute_iou_nonneg _ _ _ Hw (Hgt _ Hp) Hv).
Qed.

(** The box the search returns has an IoU, and no unmasked box a greater one. *)
Lemma closest_unmasked_true_bbox_max e (i : nat) (b : Box) :
  well_formed (bbox e) ->
  Forall well_formed (episode_true_bboxes e) ->
  closest_unmasked_true_bbox e = Ok (Some i, Some b) ->
  exists v,
    compute_iou (bbox e) b = Ok v /\
    index_in i (episode_masked_indices e) = false /\
    nth_error (episode_true_bboxes e) i = Some b /\
    forall j bj,
      nth_error (episode_true_bboxes e) j = Some bj ->
      index_in j (episode_masked_indices e) = false ->
      exists vj, compute_iou (bbox e) bj = Ok vj /\ vj <= v.
Proof.
  intros Hw Hgt Hc. unfold closest_unmasked_true_bbox in Hc.
  destruct (closest_loop _ _ _ _) as [[[om ob'] oi']|x] eqn:Hloop; [|discriminate].
  inversion Hc; subst oi' ob'; clear Hc.
  destruct (closest_loop_none _ _ _ 0%nat _
              (enumerate_from_increasing _ 0) (closest_loop_nonneg e Hw Hgt) Hloop)
    as [[Heq _]|(i' & b' & m' & Heq & Hin & Hu & Hiou & Hamong)];
    [discriminate|].
  inversion Heq; subst. exists m'.
  split; [exact Hiou|]. split; [exact Hu|]. split; [now apply enumerate_In_iff|].
  intros j bj Hj Hmj. apply enumerate_In_iff in Hj.
  destruct (Hamong (j, bj) Hj Hmj) as (vj & Hvj & Hle & _). eauto.
Qed.

(** X6: [closest_unmasked_true_bbox], for a window and ground-truth boxes with
    [x0 <= x1] and [y0 <= y1]: with every box masked it returns
    [(None, None)]; otherwise it returns an unmasked index with its box, no
    unmasked box has a greater IoU, and among the boxes that reach this IoU it
    is the first when the IoU is positive and the last when the IoU is 0. *)
Theorem closest_unmasked_true_bbox_spec e (oi : option nat) (ob : option Box) :
  well_formed (bbox e) ->
  Forall well_formed (episode_true_bboxes e) ->
  closest_unmasked_true_bbox e = Ok (oi, ob) ->
  (episode_true_bboxes_unmasked e = [] /\ oi = None /\ ob = None) \/
  (exists i b v,
     oi = Some i /\ ob = Some b /\
     nth_error (episode_true_bboxes e) i = Some b /\
     index_in i (episode_masked_indices e) = false /\
     compute_iou (bbox e) b = Ok v /\
     forall j bj,
       nth_error (episode_true_bboxes e) j = Some bj ->
       index_in j (episode_masked_indices e) = false ->
       exists vj, compute_iou (bbox e) bj = Ok vj /\ vj <= v /\
                  (0 < v -> (j < i)%nat -> vj < v) /\
                  (v == 0 -> (j <= i)%nat)).
Proof.
  intros Hw Hgt Hc. unfold closest_unmasked_true_bbox in Hc.
  destruct (closest_loop _ _ _ _) as [[[om ob'] oi']|x] eqn:Hloop; [|discriminate].
  inversion Hc; subst oi' ob'; clear Hc.
  assert (Hnn : forall p v, In p (enumerate (episode_true_bboxes e)) ->
                  compute_iou (bbox e) (snd p) = Ok v -> 0 <= v).
  { intros [j bj] v Hp Hv. simpl in Hv.
    apply enumerate_In in Hp. rewrite Forall_forall in Hgt.
    exact (compute_iou_nonneg _ _ _ Hw (Hgt _ Hp) Hv). }
  destruct (closest_loop_none _ _ _ 0%nat _
              (enumerate_from_increasing _ 0) Hnn Hloop)
    as [[Heq Hall]|(i' & b' & m' & Heq & Hin & Hu & Hiou & Hamong)].
  - left. inversion Heq; subst. split; [|split; reflexivity].
    rewrite episode_true_bboxes_unmasked_filter.
    assert (Hf : filter (fun p : nat * Box =>
                   negb (index_in (fst p) (episode_masked_indices e)))
                   (enumerate (episode_true_bboxes e)) = []).
    { apply filter_nil_all. intros p Hp. now rewrite (Hall p Hp). }
    now rewrite Hf.
  - right. inversion Heq; subst. exists i', b', m'.
    split; [reflexivity|]. split; [reflexivity|].
    split; [now apply enumerate_In_iff|]. split; [exact Hu|]. split; [exact Hiou|].
    intros j bj Hj Hmj.
    apply enumerate_In_iff in Hj. exact (Hamong (j, bj) Hj Hmj).
Qed.

(** ** What a step can raise *)

Lemma action_space_contains_get cfg action :
  action_space_contains cfg action = true ->
  exists a, action_set_get cfg action = Ok a.
Proof.
  unfold action_space_contains, action_space_n, action_set_get. intro H.
  apply andb_true_iff in H. destruct H as [H0 H1].
  apply Z.leb_le in H0. apply Z.ltb_lt in H1.
  destruct (action <? 0)%Z eqn:E; [apply Z.ltb_lt in E; lia|].
  destruct (nth_error (action_set cfg) (Z.to_nat action)) as [a|] eqn:Hn; [eauto|].
  apply nth_error_None in Hn. lia.
Qed.

Lemma compute_iou_raises (a b : Box) (x : exn) :
  compute_iou a b = Raise x -> x = ZeroDivisionError.
Proof.
  unfold compute_iou, py_truediv. destruct (Qeq_bool _ 0); [|discriminate].
  intro H. now inversion H.
Qed.

Lemma best_iou_loop_raises (window : Box) (boxes : list Box) (m : Q) (x : exn) :
  best_iou_loop window boxes m = Raise x -> x = ZeroDivisionError.
Proof.
  revert m. induction boxes as [|b boxes IH]; intros m H; simpl in H.
  - discriminate.
  - destruct (compute_iou window b) as [v|y] eqn:Hv.
    + exact (IH _ H).
    + inversion H; subst. exact (compute_iou_raises _ _ _ Hv).
Qed.

Lemma closest_loop_raises window masked items acc (x : exn) :
  closest_loop window masked items acc = Raise x -> x = ZeroDivisionError.
Proof.
  revert acc. induction items as [|[i b] items IH]; intros acc H; simpl in H.
  - discriminate.
  - destruct (index_in i masked); [exact (IH _ H)|].
    destruct (compute_iou window b) as [v|y] eqn:Hv.
    + destruct acc as [[m bb] bi]. destruct (py_not m || _); exact (IH _ H).
    + inversion H; subst. exact (compute_iou_raises _ _ _ Hv).
Qed.

Lemma closest_loop_keeps_filled window masked items acc acc' :
  filled acc -> closest_loop window masked items acc = Ok acc' -> filled acc'.
Proof.
  revert acc. induction items as [|[i b] items IH]; intros acc Hf H; simpl in H.
  - inversion H; subst. exact Hf.
  - destruct (index_in i masked); [exact (IH _ Hf H)|].
    destruct (compute_iou window b) as [v|y]; [|discriminate].
    destruct acc as [[m bb] bi].
    destruct (py_not m || _); [|exact (IH _ Hf H)].
    apply (IH _ (ex_intro _ v (ex_intro _ b (ex_intro _ i eq_refl))) H).
Qed.

Lemma closest_loop_finds window masked items acc' :
  filter (fun p => negb (index_in (fst p) masked)) items <> [] ->
  closest_loop window masked items (None, None, None) = Ok acc' -> filled acc'.
Proof.
  induction items as [|[i b] items IH]; intros Hne H; simpl in *.
  - congruence.
  - destruct (index_in i masked); simpl in Hne; [exact (IH Hne H)|].
    destruct (compute_iou window b) as [v|y]; [|discriminate].
    simpl in H.
    apply (closest_loop_keeps_filled _ _ _ _ _
             (ex_intro _ v (ex_intro _ b (ex_intro _ i eq_refl))) H).
Qed.

(** The trigger raises nothing but the [ZeroDivisionError] of an IoU: the
    search it runs behind its guard always finds a box. *)
Lemma trigger_raises cfg e (x : exn) e' :
  trigger cfg e = (Raise x, e') -> x = ZeroDivisionError.
Proof.
  unfold trigger, bind, modify, get, lift, ret, raise, create_ior_mark.
  destruct (negb (playout_episode cfg)); [discriminate|].
  destruct (String.eqb (mode cfg) "train"); [|discriminate].
  cbv beta iota.
  destruct (0 <? _)%nat eqn:Hlen; [|discriminate].
  unfold closest_unmasked_true_bbox.
  destruct (closest_loop _ _ _ _) as [acc|y] eqn:Hloop.
  - apply closest_loop_finds in Hloop.
    + destruct Hloop as (v & b & i & ->). discriminate.
    + rewrite episode_true_bboxes_unmasked_filter in Hlen. simpl in Hlen.
      simpl. intro Hnil. rewrite Hnil in Hlen. discriminate.
  - intro H. inversion H; subst. exact (closest_loop_raises _ _ _ _ _ Hloop).
Qed.

Lemma calculate_reward_raises cfg action a e (x : exn) e' :
  action_set_get cfg action = Ok a ->
  calculate_reward cfg action e = (Raise x, e') -> x = ZeroDivisionError.
Proof.
  intro Hg. unfold calculate_reward, is_termination, is_trigger, bind, lift, ret,
    get, modify, compute_best_iou.
  rewrite Hg.
  destruct (has_termination_action cfg); cbv beta iota;
    destruct (Action_eqb a Terminate);
    try (unfold py_truediv; destruct (Qeq_bool _ 0);
         [intro H; now inversion H | destruct (negb _); discriminate]);
    (destruct (Action_eqb a Trigger); [discriminate|];
     destruct (best_iou_loop _ _ _) as [v|y] eqn:Hb; [discriminate|];
     intro H; inversion H; subst; exact (best_iou_loop_raises _ _ _ _ Hb)).
Qed.

(** X9: [step] raises [AssertionError] for an action id out of range, before any
    field has changed, and otherwise nothing but [ZeroDivisionError]; there is
    no [KeyError], [IndexError] or [TypeError]. *)
Theorem step_raises_only cfg action e (x : exn) e' :
  step cfg action e = (Raise x, e') ->
  (x = AssertionError /\ action_space_contains cfg action = false /\ e' = e) \/
  (x = ZeroDivisionError /\ action_space_contains cfg action = true).
Proof.
  unfold step. destruct (action_space_contains cfg action) eqn:Hc; cbn [negb].
  - intro H. right. split; [|reflexivity].
    destruct (action_space_contains_get _ _ Hc) as [a Hg].
    rewrite bind_modify, bind_unfold in H.
    destruct (call_action cfg action _) as [[[]|y] e1] eqn:Hca.
    + rewrite bind_unfold in H.
      destruct (calculate_reward cfg action e1) as [[reward|y] e2] eqn:Hr.
      * exfalso. unfold bind, modify, get, ret, run_handler, _register_trigger_iou in H.
        simpl in H.
        destruct (post_step_handler e2) as [[]|]; simpl in H;
          match type of H with
          | context [if ?c then _ else _] => destruct c
          end; discriminate.
      * inversion H; subst. exact (calculate_reward_raises _ _ _ _ _ _ Hg Hr).
    + inversion H; subst.
      unfold call_action, bind, lift in Hca. rewrite Hg in Hca.
      destruct a as [i| |].
      * discriminate.
      * exact (trigger_raises _ _ _ _ Hca).
      * discriminate.
  - intro H. left. inversion H; subst. auto.
Qed.

(** ** The anatomy of a step that returns *)

#[local] Instance same_on_frame {X : Type} (f : Env C -> X) : Frame (same_on f).
Proof.
  split; unfold same_on.
  - reflexivity.
  - intros e1 e2 e3 H1 H2. congruence.
Qed.

Lemma step_anatomy cfg action e obs reward d e' :
  step cfg action e = (Ok (obs, reward, d), e') ->
  action_space_contains cfg action = true /\
  exists e1 e2,
    call_action cfg action (set_current_step (current_step e + 1)%Z e) = (Ok tt, e1) /\
    calculate_reward cfg action e1 = (Ok reward, e2) /\
    history e' = removelast (to_one_hot cfg action :: history e2) /\
    max_iou e' = py_max (iou e2) (max_iou e2) /\
    iou e' = iou e2 /\
    current_step e' = current_step e2 /\
    done e' = (done e2 || budget_spent cfg (current_step e2))%bool /\
    episode_trigger_ious e' =
      match post_step_handler e2 with
      | Some _ => episode_trigger_ious e2 ++ [iou e2]
      | None => episode_trigger_ious e2
      end /\
    post_step_handler e' = None /\
    episode_image e' = episode_image e2 /\
    episode_true_bboxes e' = episode_true_bboxes e2 /\
    episode_pred_bboxes e' = episode_pred_bboxes e2 /\
    episode_masked_indices e' = episode_masked_indices e2 /\
    num_triggers_used e' = num_triggers_used e2 /\
    bbox_transformer e' = bbox_transformer e2 /\
    obs = state e' /\ state e' = compute_state e' /\ d = done e'.
Proof.
  unfold step. destruct (action_space_contains cfg action); cbn [negb];
    [|discriminate].
  intro H. split; [reflexivity|].
  rewrite bind_modify, bind_unfold in H.
  destruct (call_action cfg action _) as [[[]|y] e1] eqn:Hca; [|discriminate].
  rewrite bind_unfold in H.
  destruct (calculate_reward cfg action e1) as [[r|y] e2] eqn:Hr; [|discriminate].
  exists e1, e2. split; [reflexivity|].
  unfold bind, modify, get, ret, run_handler, _register_trigger_iou in H.
  simpl in H. unfold budget_spent.
  destruct (post_step_handler e2) as [[]|] eqn:Hh; simpl in H;
    match type of H with
    | context [if ?c then _ else _] => destruct c eqn:Hb
    end; inversion H; subst; simpl; rewrite ?orb_true_r, ?orb_false_r;
    repeat split; first [reflexivity | exact Hr | exact Hh].
Qed.

(** ** Fields the trigger, the actions and the reward leave alone *)

Lemma call_action_keeps_history cfg action :
  preserves (same_on history) (call_action cfg action).
Proof. unfold call_action, trigger, terminate, create_ior_mark. frame; reflexivity. Qed.

Lemma call_action_keeps_current_step cfg action :
  preserves (same_on current_step) (call_action cfg action).
Proof. unfold call_action, trigger, terminate, create_ior_mark. frame; reflexivity. Qed.

Lemma call_action_keeps_true_bboxes cfg action :
  preserves (same_on episode_true_bboxes) (call_action cfg action).
Proof. unfold call_action, trigger, terminate, create_ior_mark. frame; reflexivity. Qed.

Lemma calculate_reward_keeps {X : Type} (f : Env C -> X) cfg action :
  (forall v e, f (set_iou v e) = f e) ->
  preserves (same_on f) (calculate_reward cfg action).
Proof. intro Hf. unfold calculate_reward. frame. apply Hf. Qed.

(** ** The history buffer *)

Lemma to_one_hot_length cfg action :
  List.length (to_one_hot cfg action) = action_space_n cfg.
Proof. unfold to_one_hot. now rewrite length_map, length_seq. Qed.

Lemma to_one_hot_nth cfg action (k : nat) :
  (k < action_space_n cfg)%nat ->
  nth_error (to_one_hot cfg action) k = Some (Z.of_nat k =? action)%Z.
Proof.
  intro Hk. unfold to_one_hot.
  rewrite nth_error_map, nth_error_seq.
  destruct (Nat.ltb_spec k (action_space_n cfg)); [reflexivity | lia].
Qed.

Lemma removelast_cons_length {A : Type} (a : A) (l : list A) :
  List.length (removelast (a :: l)) = List.length l.
Proof.
  revert a. induction l as [|b l IH]; intro a; [reflexivity|].
  change (removelast (a :: b :: l)) with (a :: removelast (b :: l)).
  cbn [List.length]. f_equal. apply IH.
Qed.

Lemma step_pushes_history cfg action e obs reward d e' :
  step cfg action e = (Ok (obs, reward, d), e') ->
  history e' = removelast (to_one_hot cfg action :: history e) /\
  List.length (history e') = List.length (history e).
Proof.
  intro H. destruct (step_anatomy _ _ _ _ _ _ _ H)
    as (_ & e1 & e2 & Hca & Hr & Hh & _).
  pose proof (call_action_keeps_history cfg action
                (set_current_step (current_step e + 1)%Z e)) as H1.
  pose proof (calculate_reward_keeps history cfg action
                (fun _ _ => eq_refl) e1) as H2.
  unfold same_on in H1, H2. rewrite Hca in H1. rewrite Hr in H2. simpl in H1, H2.
  assert (Hhist : history e' = removelast (to_one_hot cfg action :: history e))
    by (rewrite Hh, H2, H1; reflexivity).
  split; [exact Hhist|]. rewrite Hhist. apply removelast_cons_length.
Qed.

(** X10: A step that returns pushes the one-hot row of its action on the front of
    the history and drops the oldest row: the length is kept, the first row
    (when there is one) has [True] exactly at the action's id, and the
    returned observation carries this history. *)
Theorem step_history cfg action e obs reward d e' :
  step cfg action e = (Ok (obs, reward, d), e') ->
  history e' = removelast (to_one_hot cfg action :: history e) /\
  List.length (history e') = List.length (history e) /\
  (history e <> [] -> hd_error (history e') = Some (to_one_hot cfg action)) /\
  snd obs = history e' /\
  List.length (to_one_hot cfg action) = action_space_n cfg /\
  forall k, (k < action_space_n cfg)%nat ->
    nth_error (to_one_hot cfg action) k = Some (Z.of_nat k =? action)%Z.
Proof.
  intro H. destruct (step_anatomy _ _ _ _ _ _ _ H)
    as (_ & e1 & e2 & Hca & Hr & Hh & _ & _ & _ & _ & _ & _ & _ & _ & _ & _ & _ & _
        & Hobs & Hst & _).
  pose proof (call_action_keeps_history cfg action
                (set_current_step (current_step e + 1)%Z e)) as H1.
  pose proof (calculate_reward_keeps history cfg action
                (fun _ _ => eq_refl) e1) as H2.
  unfold same_on in H1, H2. rewrite Hca in H1. rewrite Hr in H2. simpl in H1, H2.
  assert (Hhist : history e' = removelast (to_one_hot cfg action :: history e))
    by (rewrite Hh, H2, H1; reflexivity).
  split; [exact Hhist|]. split; [|split; [|split; [|split]]].
  - rewrite Hhist. apply removelast_cons_length.
  - intro Hne. rewrite Hhist. destruct (history e) as [|r rest]; [congruence|].
    reflexivity.
  - rewrite Hobs, Hst. reflexivity.
  - apply to_one_hot_length.
  - intros k Hk. now apply to_one_hot_nth.
Qed.

(** ** When an episode is over *)

#[local] Instance done_stays_frame : Frame done_stays.
Proof.
  split; unfold done_stays.
  - auto.
  - intros e1 e2 e3 H1 H2 H. auto.
Qed.

Lemma step_done_stays cfg action : preserves done_stays (step cfg action).
Proof.
  unfold step, call_action, trigger, terminate, calculate_reward, run_handler,
    _register_trigger_iou, create_ior_mark.
  frame; unfold done_stays; simpl; auto.
Qed.

Lemma trigger_playout_keeps_done cfg :
  playout_episode cfg = true -> preserves (same_on done) (trigger cfg).
Proof.
  intro Hp. unfold trigger, create_ior_mark. rewrite Hp. cbn [negb].
  frame; reflexivity.
Qed.

Lemma call_action_done cfg action a e e1 :
  action_set_get cfg action = Ok a ->
  call_action cfg action e = (Ok tt, e1) ->
  done e1 = (done e || ends_episode cfg a)%bool.
Proof.
  intros Hg Hca. unfold call_action, bind, lift in Hca. rewrite Hg in Hca.
  destruct a as [i| |]; simpl.
  - inversion Hca; subst. simpl. now rewrite orb_false_r.
  - destruct (playout_episode cfg) eqn:Hp; simpl.
    + pose proof (trigger_playout_keeps_done cfg Hp e) as H.
      unfold same_on in H. rewrite Hca in H. simpl in H.
      now rewrite orb_false_r.
    + unfold trigger in Hca. rewrite Hp in Hca.
      inversion Hca; subst. simpl. now rewrite orb_true_r.
  - inversion Hca; subst. simpl. now rewrite orb_true_r.
Qed.

(** X12: The episode ends on [terminate], on a trigger without play-out and when
    the step budget is reached, and [step] never reopens it: [done] stays set
    whatever the step does, and after a step that returns, which has counted
    itself once, [done] is set exactly when it was set before, or the action
    ends the episode, or [max_steps_per_image] is not -1 and not above the
    new [current_step]. *)
Theorem step_done cfg action e :
  (done e = true -> done (snd (step cfg action e)) = true) /\
  (forall obs reward d e',
     step cfg action e = (Ok (obs, reward, d), e') ->
     current_step e' = (current_step e + 1)%Z /\
     d = done e' /\
     exists a,
       action_set_get cfg action = Ok a /\
       done e' = (done e || ends_episode cfg a
                  || budget_spent cfg (current_step e + 1))%bool).
Proof.
  split; [apply (step_done_stays cfg action e)|].
  intros obs reward d e' H.
  destruct (step_anatomy _ _ _ _ _ _ _ H)
    as (Hc & e1 & e2 & Hca & Hr & _ & _ & _ & Hcs & Hd & _ & _ & _ & _ & _ & _ & _ & _
        & _ & _ & Hdd).
  destruct (action_space_contains_get _ _ Hc) as [a Hg].
  pose proof (call_action_keeps_current_step cfg action
                (set_current_step (current_step e + 1)%Z e)) as H1.
  pose proof (calculate_reward_keeps current_step cfg action
                (fun _ _ => eq_refl) e1) as H2.
  pose proof (calculate_reward_keeps done cfg action (fun _ _ => eq_refl) e1) as H3.
  unfold same_on in H1, H2, H3. rewrite Hca in H1. rewrite Hr in H2, H3.
  simpl in H1, H2, H3.
  pose proof (call_action_done _ _ _ _ _ Hg Hca) as H4. simpl in H4.
  assert (Hstep : current_step e2 = (current_step e + 1)%Z) by congruence.
  split; [congruence|]. split; [exact Hdd|].
  exists a. split; [exact Hg|].
  rewrite Hd, H3, H4, Hstep. reflexivity.
Qed.

(** ** Logs and counters over an episode *)

#[local] Instance logs_grow_frame : Frame logs_grow.
Proof.
  split; unfold logs_grow.
  - intro e. repeat split; try (exists []; now rewrite app_nil_r); try lia.
  - intros e1 e2 e3 ([p1 P1] & [m1 M1] & [t1 T1] & B1 & N1 & S1)
      ([p2 P2] & [m2 M2] & [t2 T2] & B2 & N2 & S2).
    repeat split; try congruence; try lia.
    + exists (p1 ++ p2). now rewrite P2, P1, app_assoc.
    + exists (m1 ++ m2). now rewrite M2, M1, app_assoc.
    + exists (t1 ++ t2). now rewrite T2, T1, app_assoc.
Qed.

Ltac logs_grow_leaf :=
  unfold logs_grow; simpl;
  repeat split;
  try (exists []; now rewrite app_nil_r);
  try (eexists; reflexivity);
  try lia.

Lemma step_logs_grow cfg action : preserves logs_grow (step cfg action).
Proof.
  unfold step, call_action, trigger, terminate, calculate_reward, run_handler,
    _register_trigger_iou, create_ior_mark.
  frame; logs_grow_leaf.
Qed.

#[local] Instance triggers_counted_frame : Frame triggers_counted.
Proof.
  split; unfold triggers_counted.
  - reflexivity.
  - intros e1 e2 e3 H1 H2. lia.
Qed.

Lemma trigger_triggers_counted cfg : preserves triggers_counted (trigger cfg).
Proof.
  intro e. unfold trigger. rewrite !bind_modify.
  match goal with
  | |- triggers_counted _ (snd (?m ?s)) =>
      assert (Hm : preserves triggers_counted m)
        by (unfold create_ior_mark; frame; unfold triggers_counted; reflexivity);
      specialize (Hm s); revert Hm; generalize (snd (m s))
  end.
  intros e' H. unfold triggers_counted in *. simpl in H.
  rewrite length_app in H. simpl in H. lia.
Qed.

Lemma step_triggers_counted cfg action : preserves triggers_counted (step cfg action).
Proof.
  unfold step, call_action, terminate, calculate_reward, run_handler,
    _register_trigger_iou.
  frame; try (unfold triggers_counted; reflexivity).
  apply trigger_triggers_counted.
Qed.

(** X13: Over any run of steps, returning or raising, the predicted boxes, the
    masked indices and the trigger IoUs are only appended to, the ground-truth
    boxes stay the same, and neither counter decreases; and if there were as
    many predicted boxes as triggers used before the run, there are after
    it. *)
Theorem steps_logs_grow cfg (actions : list Z) e :
  logs_grow e (steps cfg actions e) /\
  (Z.of_nat (List.length (episode_pred_bboxes e)) = num_triggers_used e ->
   Z.of_nat (List.length (episode_pred_bboxes (steps cfg actions e))) =
   num_triggers_used (steps cfg actions e)).
Proof.
  split.
  - revert e. induction actions as [|a rest IH]; intro e; simpl.
    + apply frame_refl.
    + eapply frame_trans; [apply (step_logs_grow cfg a e) | apply IH].
  - assert (H : triggers_counted e (steps cfg actions e)).
    { revert e. induction actions as [|a rest IH]; intro e; simpl.
      - apply frame_refl.
      - eapply frame_trans; [apply (step_triggers_counted cfg a e) | apply IH]. }
    unfold triggers_counted in H. lia.
Qed.

(** ** A step of the transformer *)

Lemma action_set_get_transform cfg action :
  (0 <= action < Z.of_nat n_transformer_actions)%Z ->
  action_set_get cfg action = Ok (Transform (Z.to_nat action)).
Proof.
  intros [H0 H1]. unfold action_set_get, action_set.
  destruct (action <? 0)%Z eqn:E; [apply Z.ltb_lt in E; lia|].
  rewrite nth_error_app1 by (rewrite length_map, length_seq; lia).
  rewrite nth_error_map, nth_error_seq.
  destruct (Nat.ltb_spec (Z.to_nat action) n_transformer_actions); [reflexivity | lia].
Qed.

Lemma compute_best_iou_ext e e' :
  bbox_transformer e' = bbox_transformer e ->
  episode_true_bboxes e' = episode_true_bboxes e ->
  episode_masked_indices e' = episode_masked_indices e ->
  compute_best_iou e' = compute_best_iou e.
Proof.
  intros Hb Ht Hm.
  unfold compute_best_iou, bbox, episode_true_bboxes_unmasked. now rewrite Hb, Ht, Hm.
Qed.

(** X14: An action id below the number of transformer actions moves the window by
    that action of the transformer and nothing else of the episode: a step
    that returns has reward 0, has recomputed [iou] as the best IoU of the new
    window and folded it into [max_iou], and has left the image, the masked
    indices, the predicted boxes and the trigger counter as they were.  The
    step returns whenever the IoUs of the new window against the unmasked
    boxes are numbers. *)
Theorem step_transform cfg action e :
  (0 <= action < Z.of_nat n_transformer_actions)%Z ->
  let moved := transformer_action (Z.to_nat action) (bbox_transformer e) in
  (forall obs reward d e',
     step cfg action e = (Ok (obs, reward, d), e') ->
     reward = 0 /\
     bbox_transformer e' = moved /\
     compute_best_iou e' = Ok (iou e') /\
     max_iou e' = py_max (iou e') (max_iou e) /\
     episode_image e' = episode_image e /\
     episode_masked_indices e' = episode_masked_indices e /\
     episode_pred_bboxes e' = episode_pred_bboxes e /\
     num_triggers_used e' = num_triggers_used e) /\
  (ious_defined_on (transformer_bbox moved) (episode_true_bboxes_unmasked e) ->
   exists obs d e', step cfg action e = (Ok (obs, 0, d), e')).
Proof.
  intros Hr moved.
  pose proof (action_set_get_transform cfg action Hr) as Hg.
  pose proof (action_set_get_contains _ _ _ Hg) as Hc.
  set (e1 := set_bbox_transformer moved (set_current_step (current_step e + 1)%Z e)).
  assert (Hca : call_action cfg action (set_current_step (current_step e + 1)%Z e)
                = (Ok tt, e1)).
  { unfold call_action, bind, lift. rewrite Hg. reflexivity. }
  assert (Hrew : calculate_reward cfg action e1 =
                 match compute_best_iou e1 with
                 | Ok v => (Ok 0, set_iou v e1)
                 | Raise x => (Raise x, e1)
                 end).
  { unfold calculate_reward, is_termination, is_trigger, bind, lift, ret, modify.
    rewrite Hg. simpl.
    destruct (has_termination_action cfg); destruct (compute_best_iou e1);
      reflexivity. }
  split.
  - intros obs reward d e' H.
    destruct (step_anatomy _ _ _ _ _ _ _ H)
      as (_ & e1' & e2 & Hca' & Hrw & _ & Hmax & Hiou & _ & _ & _ & _ & Himg & Htb
          & Hpred & Hmask & Hnum & Hbt & _).
    rewrite Hca in Hca'. inversion Hca'; subst e1'; clear Hca'.
    rewrite Hrew in Hrw.
    destruct (compute_best_iou e1) as [v|x] eqn:Hbest; [|discriminate].
    inversion Hrw; subst reward e2; clear Hrw.
    simpl in *. repeat split; try assumption.
    + rewrite Hiou. rewrite <- Hbest. apply compute_best_iou_ext; assumption.
    + rewrite Hmax, Hiou. reflexivity.
  - intro Hd.
    assert (Hbest : exists v, compute_best_iou e1 = Ok v).
    { unfold compute_best_iou. apply best_iou_loop_ok. exact Hd. }
    destruct Hbest as [v Hbest].
    unfold step. rewrite Hc. cbn [negb].
    rewrite bind_modify, bind_unfold, Hca, bind_unfold, Hrew, Hbest.
    unfold bind, modify, get, ret, run_handler, _register_trigger_iou. simpl.
    destruct (post_step_handler e) as [[]|]; simpl;
      match goal with
      | |- context [if ?c then _ else _] => destruct c
      end; do 3 eexists; reflexivity.
Qed.

(** ** reset *)

(** Walks through a sequence whose steps all keep the assertion [I]; [tac]
    proves [I] after each step. *)
Ltac hoare_walk I tac :=
  repeat match goal with
  | |- hoare _ (bind _ _) _ => eapply (hoare_bind (fun _ => I)); [ | intros ? ]
  | |- hoare _ (modify _) _ => apply hoare_modify; intros ? ?; tac
  | |- hoare _ (ret _) _ => apply hoare_ret; intros ? ?; tac
  | |- hoare _ get _ => apply hoare_get; intros ? ?; tac
  | |- hoare _ (lift _) _ => apply hoare_lift; intros ? ? ? ?; tac
  | |- hoare _ (raise _) _ => apply hoare_raise
  | |- hoare _ (if ?c then _ else _) _ => destruct c
  | |- hoare _ (match ?x with _ => _ end) _ => destruct x
  end.

Ltac hoare_next I tac :=
  eapply (hoare_bind (fun _ => I)); [ hoare_walk I tac | intros ? ].

(** Premasking changes the random generator, the image and the masked
    indices, and nothing else. *)
Lemma premask_loop_keeps (I : Env C -> Prop) cfg (items : list (nat * Box)) :
  (forall v e, I e -> I (set_np_random v e)) ->
  (forall v e, I e -> I (set_episode_image v e)) ->
  (forall v e, I e -> I (set_episode_masked_indices v e)) ->
  forall num_unmasked, hoare I (premask_loop cfg items num_unmasked) (fun _ => I).
Proof.
  intros Hr Hi Hm.
  induction items as [|[idx box] rest IH]; intro num; simpl.
  - apply hoare_ret. auto.
  - eapply (hoare_bind (fun _ => I)); [apply hoare_get; auto|]. intro e1.
    destruct (rng_random (np_random e1)) as [mask_rand rng].
    eapply (hoare_bind (fun _ => I)); [apply hoare_modify; auto|]. intros _.
    destruct num as [n|]; [|apply hoare_raise].
    destruct ((_ <? n)%Z && _).
    + unfold create_ior_mark.
      eapply (hoare_bind (fun _ => I)); [apply hoare_modify; auto|]. intros _.
      eapply (hoare_bind (fun _ => I)); [apply hoare_modify; auto|]. intros _.
      apply IH.
    + apply IH.
Qed.

Lemma compute_state_ext e e' :
  episode_image e' = episode_image e ->
  bbox_transformer e' = bbox_transformer e ->
  history e' = history e ->
  compute_state e' = compute_state e.
Proof.
  intros Hi Hb Hh. unfold compute_state, get_warped_bbox_contents, bbox.
  now rewrite Hi, Hb, Hh.
Qed.

Lemma reset_clears_history cfg (image_index : option nat) e obs e0 :
  reset cfg image_index e = (Ok obs, e0) ->
  history e0 = create_empty_history cfg.
Proof.
  intro Hr.
  set (I0 := fun e1 : Env C => history e1 = create_empty_history cfg).
  assert (H : hoare (fun _ => True) (reset cfg image_index) (fun _ e0 => I0 e0));
    [|exact (H e I obs e0 Hr)].
  clear Hr. unfold reset.
  do 10 (hoare_next I0 ltac:(unfold I0 in *; simpl; auto)).
  eapply (hoare_bind (fun _ => I0)).
  { destruct (String.eqb (mode cfg) "train" && premasking cfg).
    - eapply (hoare_bind (fun _ => I0)); [apply hoare_get; auto|]. intro e1.
      apply premask_loop_keeps; unfold I0; simpl; auto.
    - apply hoare_ret. auto. }
  intros _.
  hoare_walk I0 ltac:(unfold I0 in *; simpl; auto).
Qed.

(** X17: A [reset] that returns starts a fresh episode: an all-[False] history,
    empty logs, both counters at 0, [done] cleared, the transformer reset to
    the size of the loaded image, [iou] the best IoU of that window and
    [max_iou] equal to it; what it returns is the observation of that
    state. *)
Theorem reset_fresh_episode cfg (image_index : option nat) e obs e0 :
  reset cfg image_index e = (Ok obs, e0) ->
  fresh_episode cfg (bbox_transformer e) e0 /\ obs = state e0.
Proof.
  intro Hr.
  set (t0 := bbox_transformer e).
  set (I0 := fun e1 : Env C =>
               history e1 = create_empty_history cfg /\ bbox_transformer e1 = t0).
  assert (H : hoare (fun e1 => bbox_transformer e1 = t0) (reset cfg image_index)
                (fun obs e0 => fresh_episode cfg t0 e0 /\ obs = state e0));
    [|exact (H e eq_refl obs e0 Hr)].
  clear Hr. unfold reset.
  (* loading the image and the ground truth *)
  do 10 (hoare_next I0 ltac:(unfold I0 in *; simpl; intuition auto)).
  (* premasking *)
  eapply (hoare_bind (fun _ => I0)).
  { destruct (String.eqb (mode cfg) "train" && premasking cfg).
    - eapply (hoare_bind (fun _ => I0)); [apply hoare_get; auto|]. intro e1.
      apply premask_loop_keeps; unfold I0; simpl; auto.
    - apply hoare_ret. auto. }
  intros _.
  (* the fields of the new episode *)
  eapply (hoare_bind (fun _ e1 => I0 e1 /\ episode_pred_bboxes e1 = [])).
  { apply hoare_modify. unfold I0. simpl. intuition auto. }
  intros _.
  eapply (hoare_bind (fun _ e1 => I0 e1 /\ episode_pred_bboxes e1 = [] /\
                                  episode_trigger_ious e1 = [])).
  { apply hoare_modify. unfold I0. simpl. intuition auto. }
  intros _.
  eapply (hoare_bind (fun _ e1 => I0 e1 /\ episode_pred_bboxes e1 = [] /\
                                  episode_trigger_ious e1 = [] /\
                                  num_triggers_used e1 = 0%Z)).
  { apply hoare_modify. unfold I0. simpl. intuition auto. }
  intros _.
  eapply (hoare_bind (fun _ e1 => I0 e1 /\ episode_pred_bboxes e1 = [] /\
                                  episode_trigger_ious e1 = [] /\
                                  num_triggers_used e1 = 0%Z /\
                                  current_step e1 = 0%Z)).
  { apply hoare_modify. unfold I0. simpl. intuition auto. }
  intros _.
  set (I5 := fun e1 : Env C =>
    history e1 = create_empty_history cfg /\
    episode_pred_bboxes e1 = [] /\
    episode_trigger_ious e1 = [] /\
    num_triggers_used e1 = 0%Z /\
    current_step e1 = 0%Z /\
    bbox_transformer e1 =
      transformer_reset (image_width (episode_image e1))
        (image_height (episode_image e1)) t0).
  eapply (hoare_bind (fun _ => I5)).
  { apply hoare_modify. unfold I0, I5. simpl.
    intros e1 ((Hh & Ht) & Hp & Hti & Hn & Hc). rewrite Ht. intuition auto. }
  intros _.
  eapply (hoare_bind (fun _ e1 => I5 e1 /\ state e1 = compute_state e1)).
  { apply hoare_modify. unfold I5. simpl. intuition auto. }
  intros _.
  eapply (hoare_bind (fun _ e1 => I5 e1 /\ state e1 = compute_state e1 /\
                                  done e1 = false)).
  { apply hoare_modify. unfold I5. simpl. intros e1 (H5 & Hs).
    split; [exact H5|]. split; [|reflexivity].
    rewrite Hs. symmetry. apply compute_state_ext; reflexivity. }
  intros _.
  eapply (hoare_bind (fun v e1 => I5 e1 /\ state e1 = compute_state e1 /\
                                  done e1 = false /\ compute_best_iou e1 = Ok v)).
  { apply hoare_lift. intuition auto. }
  intro v.
  eapply (hoare_bind (fun _ e1 => I5 e1 /\ state e1 = compute_state e1 /\
                                  done e1 = false /\
                                  compute_best_iou e1 = Ok (iou e1))).
  { apply hoare_modify. unfold I5. simpl. intros e1 (H5 & Hs & Hd & Hb).
    split; [exact H5|]. split; [|split; [exact Hd|]].
    - rewrite Hs. symmetry. apply compute_state_ext; reflexivity.
    - rewrite <- Hb. apply compute_best_iou_ext; reflexivity. }
  intros _.
  eapply (hoare_bind (fun _ e1 => fresh_episode cfg t0 e1)).
  { apply hoare_modify. unfold I5, fresh_episode. simpl.
    intros e1 ((Hh & Hp & Hti & Hn & Hc & Ht) & Hs & Hd & Hb).
    repeat split; try assumption; try reflexivity;
      try (rewrite Hs; symmetry; apply compute_state_ext; reflexivity);
      try (rewrite <- Hb; apply compute_best_iou_ext; reflexivity). }
  intros _.
  eapply (hoare_bind (fun e1 e2 => fresh_episode cfg t0 e2 /\ e1 = e2)).
  { apply hoare_get. auto. }
  intro e1. apply hoare_ret. intros e2 [Hf ->]. auto.
Qed.

(** *** Premasking *)

Lemma hoare_conj {A : Type} (P P' : Env C -> Prop) (m : M C A)
    (Q Q' : A -> Env C -> Prop) :
  hoare P m Q -> hoare P' m Q' ->
  hoare (fun e => P e /\ P' e) m (fun a e => Q a e /\ Q' a e).
Proof. intros H H' e [HP HP'] a e' Hm. split; [eapply H | eapply H']; eauto. Qed.

Lemma hoare_weaken {A : Type} (P P' : Env C -> Prop) (m : M C A)
    (Q Q' : A -> Env C -> Prop) :
  hoare P' m Q' -> (forall e, P e -> P' e) -> (forall a e, Q' a e -> Q a e) ->
  hoare P m Q.
Proof. intros H HP HQ e He a e' Hm. apply HQ. eapply H; eauto. Qed.

(** The loop masks a box only while more than [min_unmasked] are left. *)
Lemma premask_loop_bound cfg (items : list (nat * Box)) :
  forall (n : Z) (k : nat),
    hoare (fun e => List.length (episode_masked_indices e) = k)
      (premask_loop cfg items (Some n))
      (fun _ e' =>
         (Z.of_nat (List.length (episode_masked_indices e')) <=
          Z.of_nat k + Z.max 0 (n - min_unmasked cfg))%Z).
Proof.
  induction items as [|[idx box] rest IH]; intros n k; simpl.
  - apply hoare_ret. intros e He. lia.
  - eapply (hoare_bind (fun _ e => List.length (episode_masked_indices e) = k));
      [apply hoare_get; auto|].
    intro e1. destruct (rng_random (np_random e1)) as [mask_rand rng].
    eapply (hoare_bind (fun _ e => List.length (episode_masked_indices e) = k));
      [apply hoare_modify; auto|].
    intros _. fold (min_unmasked cfg).
    destruct (min_unmasked cfg <? n)%Z eqn:Hlt; simpl.
    + destruct (Qle_bool mask_rand P_MASK).
      * unfold create_ior_mark.
        eapply (hoare_bind (fun _ e => List.length (episode_masked_indices e) = k));
          [apply hoare_modify; auto|].
        intros _.
        eapply (hoare_bind (fun _ e => List.length (episode_masked_indices e) = S k)).
        { apply hoare_modify. intros e He. simpl. rewrite length_app. simpl. lia. }
        intros _. apply Z.ltb_lt in Hlt.
        eapply hoare_weaken; [apply (IH (n - 1)%Z (S k)) | auto |].
        intros u e He. cbv beta in He. lia.
      * eapply hoare_weaken; [apply (IH n k) | auto | auto].
    + eapply hoare_weaken; [apply (IH n k) | auto | auto].
Qed.

Lemma index_in_In (i : nat) (l : list nat) : index_in i l = true <-> In i l.
Proof.
  unfold index_in. rewrite existsb_exists. split.
  - intros [x [Hx Heq]]. apply Nat.eqb_eq in Heq. now subst.
  - intro H. exists i. split; [exact H | apply Nat.eqb_refl].
Qed.

Lemma index_in_remove (i j : nat) (l : list nat) :
  i <> j -> index_in i (remove Nat.eq_dec j l) = index_in i l.
Proof.
  intro Hij. induction l as [|x l IH]; simpl; [reflexivity|].
  destruct (Nat.eq_dec j x) as [->|Hne]; simpl.
  - rewrite IH. destruct (Nat.eqb_spec i x); [congruence | reflexivity].
  - now rewrite IH.
Qed.

(** Each masked index hides at most one box. *)
Lemma unmasked_count (items : list (nat * Box)) :
  forall (s : nat) (masked : list nat),
    increasing_from s items ->
    (List.length items <=
     List.length (filter (fun p => negb (index_in (fst p) masked)) items) +
     List.length masked)%nat.
Proof.
  induction items as [|[j b] rest IH]; intros s masked Hinc; simpl.
  - lia.
  - destruct Hinc as [_ Hinc]. simpl in Hinc.
    destruct (index_in j masked) eqn:Hj; simpl.
    + assert (Hin : In j masked) by (now apply index_in_In).
      pose proof (remove_length_lt Nat.eq_dec masked j Hin) as Hlt.
      specialize (IH _ (remove Nat.eq_dec j masked) Hinc).
      assert (Hf : filter (fun p => negb (index_in (fst p) (remove Nat.eq_dec j masked)))
                     rest =
                   filter (fun p => negb (index_in (fst p) masked)) rest).
      { apply filter_ext_in. intros p Hp.
        rewrite index_in_remove; [reflexivity|].
        pose proof (increasing_from_In _ _ _ Hinc Hp). lia. }
      rewrite Hf in IH. lia.
    + specialize (IH _ masked Hinc). lia.
Qed.

Lemma enumerate_length {A : Type} (l : list A) :
  List.length (enumerate l) = List.length l.
Proof.
  unfold enumerate. rewrite length_combine, length_seq. apply Nat.min_id.
Qed.

(** X18: After a [reset] that returns, premasking has left at least
    [min_unmasked] ground-truth boxes unmasked (all of them when there are
    fewer): none may be left when there is a termination action, and at least
    one is left otherwise, whatever the random draws were. *)
Theorem reset_premask_floor cfg (image_index : option nat) e obs e0 :
  reset cfg image_index e = (Ok obs, e0) ->
  (Z.of_nat (List.length (episode_masked_indices e0)) <=
   Z.max 0 (Z.of_nat (List.length (episode_true_bboxes e0)) - min_unmasked cfg))%Z /\
  (Z.min (min_unmasked cfg) (Z.of_nat (List.length (episode_true_bboxes e0))) <=
   Z.of_nat (List.length (episode_true_bboxes_unmasked e0)))%Z /\
  (has_termination_action cfg = false ->
   episode_true_bboxes e0 <> [] -> episode_true_bboxes_unmasked e0 <> []).
Proof.
  intro Hr.
  set (B := fun e1 : Env C =>
    (Z.of_nat (List.length (episode_masked_indices e1)) <=
     Z.max 0 (Z.of_nat (List.length (episode_true_bboxes e1)) - min_unmasked cfg))%Z).
  assert (HB : B e0).
  { assert (H : hoare (fun _ => True) (reset cfg image_index) (fun _ e0 => B e0));
      [|exact (H e I obs e0 Hr)].
    clear Hr. unfold reset.
    do 9 (hoare_next (fun _ : Env C => True) ltac:(auto)).
    eapply (hoare_bind (fun _ e1 => episode_masked_indices e1 = [])).
    { apply hoare_modify. reflexivity. }
    intros _.
    eapply (hoare_bind (fun _ => B)).
    { destruct (String.eqb (mode cfg) "train" && premasking cfg).
      - eapply (hoare_bind (fun e1 e2 =>
                  episode_masked_indices e2 = [] /\
                  episode_true_bboxes e2 = episode_true_bboxes e1)).
        { apply hoare_get. auto. }
        intro e1. unfold episode_num_true_bboxes.
        destruct (episode_true_bboxes e1) as [|b0 bs] eqn:Hgt.
        + simpl. apply hoare_ret. intros e2 [Hm Ht]. unfold B. rewrite Hm. simpl. lia.
        + eapply hoare_weaken.
          * apply hoare_conj.
            -- apply (premask_loop_bound cfg (enumerate (b0 :: bs))
                        (Z.of_nat (List.length (b0 :: bs))) 0).
            -- apply (premask_loop_keeps
                        (fun e2 => episode_true_bboxes e2 = b0 :: bs));
                 simpl; auto.
          * intros e2 [Hm Ht]. split; [now rewrite Hm | exact Ht].
          * intros u e2 [Hb Ht]. unfold B. rewrite Ht. cbv beta in Hb. lia.
      - apply hoare_ret. intros e1 Hm. unfold B. rewrite Hm. simpl. lia. }
    intros _.
    hoare_walk B ltac:(unfold B in *; simpl; auto). }
  unfold B in HB.
  assert (Hcount : (List.length (episode_true_bboxes e0) <=
                    List.length (episode_true_bboxes_unmasked e0) +
                    List.length (episode_masked_indices e0))%nat).
  { rewrite episode_true_bboxes_unmasked_filter, length_map.
    rewrite <- (enumerate_length (episode_true_bboxes e0)) at 1.
    apply (unmasked_count _ 0%nat). apply enumerate_from_increasing. }
  split; [exact HB|]. split; [lia|].
  intros Hh Hne Hnil. unfold min_unmasked in HB. rewrite Hh in HB.
  rewrite Hnil in Hcount. simpl in Hcount.
  destruct (episode_true_bboxes e0) as [|b0 bs]; [congruence|].
  simpl List.length in *. lia.
Qed.

(** *** The image index *)


Lemma py_index_in_range {A : Type} (l : list A) (i : nat) :
  (i < List.length l)%nat -> exists a, py_index l i = Ok a /\ nth_error l i = Some a.
Proof.
  intro H. unfold py_index.
  destruct (nth_error l i) as [a|] eqn:E; [eauto|].
  apply nth_error_None in E. lia.
Qed.


(** ** The trigger in training mode *)

Lemma closest_loop_member window masked items acc acc' :
  closest_loop window masked items acc = Ok acc' ->
  acc' = acc \/
  exists v b i,
    acc' = (Some v, Some b, Some i) /\ In (i, b) items /\
    index_in i masked = false /\ compute_iou window b = Ok v.
Proof.
  revert acc. induction items as [|[j bj] rest IH]; intros acc H; simpl in H.
  - inversion H. now left.
  - assert (Hrest : forall a, closest_loop window masked rest a = Ok acc' ->
              acc' = a \/
              exists v b i,
                acc' = (Some v, Some b, Some i) /\ In (i, b) ((j, bj) :: rest) /\
                index_in i masked = false /\ compute_iou window b = Ok v).
    { intros a Ha. destruct (IH a Ha) as [->|(v & b & i & -> & Hin & Hu & Hv)].
      - now left.
      - right. exists v, b, i. split; [reflexivity|]. split; [now right | auto]. }
    destruct (index_in j masked) eqn:Hj; [exact (Hrest _ H)|].
    destruct (compute_iou window bj) as [v|x] eqn:Hv; [|discriminate].
    destruct acc as [[m bb] bi].
    destruct (py_not m || _); [|exact (Hrest _ H)].
    destruct (Hrest _ H) as [->|Hm]; [|right; exact Hm].
    right. exists v, bj, j. split; [reflexivity|]. split; [now left | auto].
Qed.

Lemma closest_unmasked_true_bbox_ext e e' :
  bbox_transformer e' = bbox_transformer e ->
  episode_true_bboxes e' = episode_true_bboxes e ->
  episode_masked_indices e' = episode_masked_indices e ->
  closest_unmasked_true_bbox e' = closest_unmasked_true_bbox e.
Proof.
  intros Hb Ht Hm. unfold closest_unmasked_true_bbox, bbox. now rewrite Hb, Ht, Hm.
Qed.

Lemma index_in_app (j : nat) (l1 l2 : list nat) :
  index_in j (l1 ++ l2) = (index_in j l1 || index_in j l2)%bool.
Proof. unfold index_in. apply existsb_app. Qed.

(** Masking one more index, of an unmasked item, hides exactly that item. *)
Lemma unmasked_one_less (items : list (nat * Box)) :
  forall (s i : nat) (b : Box) (masked : list nat),
    increasing_from s items ->
    In (i, b) items ->
    index_in i masked = false ->
    (List.length (filter (fun p => negb (index_in (fst p) (masked ++ [i]))) items) + 1 =
     List.length (filter (fun p => negb (index_in (fst p) masked)) items))%nat.
Proof.
  induction items as [|[j bj] rest IH]; intros s i b masked Hinc Hin Hu; simpl.
  - contradiction.
  - destruct Hinc as [_ Hinc]. simpl in Hinc.
    rewrite index_in_app. simpl. rewrite orb_false_r.
    destruct (Nat.eqb_spec j i) as [->|Hne].
    + rewrite Hu. simpl.
      assert (Hf : filter (fun p => negb (index_in (fst p) (masked ++ [i]))) rest =
                   filter (fun p => negb (index_in (fst p) masked)) rest).
      { apply filter_ext_in. intros p Hp. rewrite index_in_app. simpl.
        pose proof (increasing_from_In _ _ _ Hinc Hp).
        destruct (Nat.eqb_spec (fst p) i); [lia|]. now rewrite !orb_false_r. }
      rewrite Hf. lia.
    + destruct Hin as [Heq|Hin]; [inversion Heq; congruence|].
      specialize (IH _ i b masked Hinc Hin Hu).
      rewrite orb_false_r. destruct (index_in j masked); simpl; lia.
Qed.

(** What the trigger does in training mode with play-out, when it returns. *)
Lemma trigger_train cfg e e1 :
  mode cfg = "train"%string ->
  playout_episode cfg = true ->
  trigger cfg e = (Ok tt, e1) ->
  episode_pred_bboxes e1 = episode_pred_bboxes e ++ [bbox e] /\
  num_triggers_used e1 = (num_triggers_used e + 1)%Z /\
  episode_true_bboxes e1 = episode_true_bboxes e /\
  bbox_transformer e1 =
    transformer_reset (image_width (episode_image e1)) (image_height (episode_image e1))
      (bbox_transformer e) /\
  ((episode_true_bboxes_unmasked e = [] /\
    episode_masked_indices e1 = episode_masked_indices e /\
    episode_image e1 = episode_image e) \/
   (exists i b,
      closest_unmasked_true_bbox e = Ok (Some i, Some b) /\
      episode_masked_indices e1 = episode_masked_indices e ++ [i] /\
      episode_image e1 = ImageMasker_mask (episode_image e) b (ior_marker_type cfg))).
Proof.
  intros Hm Hp. unfold trigger. rewrite Hm, Hp, String.eqb_refl. cbn [negb].
  unfold bind, modify, get, lift, ret, raise, create_ior_mark. cbv beta iota.
  set (es := set_post_step_handler (Some register_trigger_iou_handler)
               (set_episode_pred_bboxes _ _)).
  assert (Hu : episode_true_bboxes_unmasked es = episode_true_bboxes_unmasked e)
    by reflexivity.
  assert (Hc : closest_unmasked_true_bbox es = closest_unmasked_true_bbox e)
    by reflexivity.
  rewrite Hu.
  destruct (0 <? List.length (episode_true_bboxes_unmasked e))%nat eqn:Hlen;
    cbv beta iota.
  - rewrite Hc.
    destruct (closest_unmasked_true_bbox e) as [[[i|] [b|]]|x];
      intro H; inversion H; subst; clear H; simpl.
    repeat split. right. exists i, b. repeat split.
  - intro H. inversion H; subst; clear H. simpl. repeat split. left.
    apply Nat.ltb_ge in Hlen.
    destruct (episode_true_bboxes_unmasked e); [auto | simpl in Hlen; lia].
Qed.

Lemma closest_unmasked_true_bbox_member e (i : nat) (b : Box) :
  closest_unmasked_true_bbox e = Ok (Some i, Some b) ->
  nth_error (episode_true_bboxes e) i = Some b /\
  index_in i (episode_masked_indices e) = false.
Proof.
  unfold closest_unmasked_true_bbox.
  destruct (closest_loop _ _ _ _) as [[[om ob] oi]|x] eqn:Hloop; [|discriminate].
  intro H. inversion H; subst; clear H.
  destruct (closest_loop_member _ _ _ _ _ Hloop)
    as [Heq|(v & b' & i' & Heq & Hin & Hu & _)].
  - discriminate.
  - inversion Heq; subst. split; [now apply enumerate_In_iff | exact Hu].
Qed.

(** X15: A trigger step that returns in training mode with play-out logs the
    window as a prediction, counts the trigger and resets the transformer to
    the image size.  With every box masked it masks nothing and leaves the
    image alone; otherwise it masks the one box [closest_unmasked_true_bbox]
    gives, an unmasked box of the ground truth: its index is appended to the
    masked indices, the image is marked at that box, and exactly one box
    fewer is unmasked. *)
Theorem step_trigger_train cfg action e obs reward d e' :
  mode cfg = "train"%string ->
  playout_episode cfg = true ->
  is_trigger cfg action = Ok true ->
  step cfg action e = (Ok (obs, reward, d), e') ->
  episode_pred_bboxes e' = episode_pred_bboxes e ++ [bbox e] /\
  num_triggers_used e' = (num_triggers_used e + 1)%Z /\
  bbox_transformer e' =
    transformer_reset (image_width (episode_image e')) (image_height (episode_image e'))
      (bbox_transformer e) /\
  ((episode_true_bboxes_unmasked e = [] /\
    episode_masked_indices e' = episode_masked_indices e /\
    episode_image e' = episode_image e) \/
   (exists i b,
      closest_unmasked_true_bbox e = Ok (Some i, Some b) /\
      nth_error (episode_true_bboxes e) i = Some b /\
      index_in i (episode_masked_indices e) = false /\
      episode_masked_indices e' = episode_masked_indices e ++ [i] /\
      episode_image e' = ImageMasker_mask (episode_image e) b (ior_marker_type cfg) /\
      (List.length (episode_true_bboxes_unmasked e') + 1 =
       List.length (episode_true_bboxes_unmasked e))%nat)).
Proof.
  intros Hm Hp Ht H.
  pose proof (is_trigger_get _ _ Ht) as Hg.
  destruct (step_anatomy _ _ _ _ _ _ _ H)
    as (_ & e1 & e2 & Hca & Hr & _ & _ & _ & _ & _ & _ & _ & Himg & Htb
        & Hpred & Hmask & Hnum & Hbt & _).
  rewrite (calculate_reward_trigger_eq cfg action e1 Ht) in Hr.
  inversion Hr; subst e2; clear Hr.
  unfold call_action, bind, lift in Hca. rewrite Hg in Hca.
  destruct (trigger_train _ _ _ Hm Hp Hca) as (Tp & Tn & Tb & Tt & Tm).
  simpl in Tn, Tb, Tt, Tm.
  split; [rewrite Hpred, Tp; reflexivity|]. split; [congruence|].
  split; [rewrite Hbt, Himg; exact Tt|].
  destruct Tm as [(Hnil & Tmask & Timg)|(i & b & Hc & Tmask & Timg)].
  - left. repeat split; [exact Hnil | congruence | congruence].
  - right. exists i, b.
    assert (Hc' : closest_unmasked_true_bbox e = Ok (Some i, Some b)) by exact Hc.
    destruct (closest_unmasked_true_bbox_member _ _ _ Hc') as [Hnth Hu].
    split; [exact Hc'|]. split; [exact Hnth|]. split; [exact Hu|].
    split; [congruence|]. split; [congruence|].
    rewrite !episode_true_bboxes_unmasked_filter, !length_map.
    rewrite Hmask, Htb, Tmask, Tb.
    apply (unmasked_one_less _ 0%nat i b).
    + apply enumerate_from_increasing.
    + now apply enumerate_In_iff.
    + exact Hu.
Qed.

(** X7: For a window and ground-truth boxes with [x0 <= x1] and [y0 <= y1], the
    best IoU is the IoU of the box the search for the closest unmasked box
    returns: the box a trigger masks is one that attains the IoU the agent is
    rewarded for. *)
Theorem compute_best_iou_is_closest e (r : Q) (i : nat) (b : Box) :
  well_formed (bbox e) ->
  Forall well_formed (episode_true_bboxes e) ->
  compute_best_iou e = Ok r ->
  closest_unmasked_true_bbox e = Ok (Some i, Some b) ->
  exists v, compute_iou (bbox e) b = Ok v /\ v == r.
Proof.
  intros Hw Hgt Hbest Hc.
  destruct (closest_unmasked_true_bbox_max e i b Hw Hgt Hc)
    as (v & Hv & Hu & Hnth & Hmax).
  exists v. split; [exact Hv|].
  destruct (best_iou_loop_spec _ _ _ _ Hbest) as (H0 & Hall & Hor).
  assert (Hin : In b (episode_true_bboxes_unmasked e)).
  { rewrite episode_true_bboxes_unmasked_filter. apply in_map_iff.
    exists (i, b). split; [reflexivity|]. apply filter_In.
    split; [now apply enumerate_In_iff | simpl; now rewrite Hu]. }
  destruct (Hall b Hin) as (v' & Hv' & Hle). rewrite Hv in Hv'.
  inversion Hv'; subst v'.
  assert (Hge : r <= v).
  { destruct Hor as [->|(box & Hbox & Hr)].
    - rewrite Forall_forall in Hgt.
      apply (compute_iou_nonneg (bbox e) b v Hw); [|exact Hv].
      apply Hgt. eapply nth_error_In; eauto.
    - rewrite episode_true_bboxes_unmasked_filter in Hbox.
      apply in_map_iff in Hbox. destruct Hbox as ([j bj] & Hsnd & Hf).
      simpl in Hsnd. subst bj. apply filter_In in Hf. destruct Hf as [Hj Huj].
      simpl in Huj. apply negb_true_iff in Huj.
      apply enumerate_In_iff in Hj.
      destruct (Hmax j box Hj Huj) as (vj & Hvj & Hlej).
      rewrite Hr in Hvj. inversion Hvj; subst. exact Hlej. }
  lra.
Qed.

(** ** The shape of the history *)

Lemma step_raise_keeps_history cfg action e (x : exn) e' :
  step cfg action e = (Raise x, e') -> history e' = history e.
Proof.
  unfold step. destruct (action_space_contains cfg action); cbn [negb].
  - intro H. rewrite bind_modify, bind_unfold in H.
    pose proof (call_action_keeps_history cfg action
                  (set_current_step (current_step e + 1)%Z e)) as H1.
    unfold same_on in H1.
    destruct (call_action cfg action _) as [[[]|y] e1] eqn:Hca; simpl in H1.
    + rewrite bind_unfold in H.
      pose proof (calculate_reward_keeps history cfg action
                    (fun _ _ => eq_refl) e1) as H2.
      unfold same_on in H2.
      destruct (calculate_reward cfg action e1) as [[reward|y] e2] eqn:Hr;
        simpl in H2.
      * exfalso. unfold bind, modify, get, ret, run_handler, _register_trigger_iou in H.
        simpl in H.
        destruct (post_step_handler e2) as [[]|]; simpl in H;
          match type of H with
          | context [if ?c then _ else _] => destruct c
          end; discriminate.
      * inversion H; subst. congruence.
    + inversion H; subst. exact H1.
  - intro H. inversion H; subst. reflexivity.
Qed.

Lemma removelast_incl {A : Type} (l : list A) (a : A) :
  In a (removelast l) -> In a l.
Proof.
  induction l as [|b l IH]; [contradiction|].
  destruct l as [|c l]; [contradiction|].
  change (removelast (b :: c :: l)) with (b :: removelast (c :: l)).
  intros [<-|H]; [now left | right; now apply IH].
Qed.

Lemma step_keeps_history_shape cfg action e (rows : nat) :
  history_shape rows (action_space_n cfg) e ->
  history_shape rows (action_space_n cfg) (snd (step cfg action e)).
Proof.
  intros [Hlen Hrows].
  destruct (step cfg action e) as [[[[obs reward] d]|x] e'] eqn:Hs; simpl.
  - destruct (step_pushes_history _ _ _ _ _ _ _ Hs) as (Hh & Hl).
    split; [congruence|].
    rewrite Hh. apply Forall_forall. intros row Hin.
    apply removelast_incl in Hin. destruct Hin as [<-|Hin].
    + apply to_one_hot_length.
    + rewrite Forall_forall in Hrows. now apply Hrows.
  - pose proof (step_raise_keeps_history _ _ _ _ _ Hs) as Hk.
    unfold history_shape. rewrite Hk. now split.
Qed.

(** X11: From a [reset] that returns and through any run of steps, returning or
    raising, the history has exactly [history_length] rows, each with one
    entry per action. *)
Theorem history_shape_kept cfg (image_index : option nat) e obs e0 (actions : list Z) :
  reset cfg image_index e = (Ok obs, e0) ->
  history_shape (history_length cfg) (action_space_n cfg) (steps cfg actions e0).
Proof.
  intro Hr.
  assert (H0 : history_shape (history_length cfg) (action_space_n cfg) e0).
  { pose proof (reset_clears_history _ _ _ _ _ Hr) as Hh.
    unfold history_shape. rewrite Hh. unfold create_empty_history.
    split; [apply repeat_length|].
    apply Forall_forall. intros row Hin. apply repeat_spec in Hin. subst row.
    apply repeat_length. }
  clear Hr. revert e0 H0.
  induction actions as [|a rest IH]; intros e0 H0; simpl.
  - exact H0.
  - apply IH. now apply step_keeps_history_shape.
Qed.

(** ** The unmasked boxes *)

(** X8: [episode_true_bboxes_unmasked] lists the ground-truth boxes whose index
    is not masked: all of them when nothing is masked, and exactly one box
    fewer once the index of an unmasked box is added to the masked indices. *)
Theorem episode_true_bboxes_unmasked_spec e :
  (forall b, In b (episode_true_bboxes_unmasked e) <->
     exists i, nth_error (episode_true_bboxes e) i = Some b /\
               index_in i (episode_masked_indices e) = false) /\
  (episode_masked_indices e = [] ->
   episode_true_bboxes_unmasked e = episode_true_bboxes e) /\
  (forall i b,
     nth_error (episode_true_bboxes e) i = Some b ->
     index_in i (episode_masked_indices e) = false ->
     (List.length (episode_true_bboxes_unmasked
        (set_episode_masked_indices (episode_masked_indices e ++ [i]) e)) + 1 =
      List.length (episode_true_bboxes_unmasked e))%nat).
Proof.
  split; [|split].
  - intro b. rewrite episode_true_bboxes_unmasked_filter, in_map_iff. split.
    + intros ([i b'] & Hs & Hf). simpl in Hs. subst b'.
      apply filter_In in Hf. destruct Hf as [Hin Hu]. simpl in Hu.
      exists i. split; [now apply enumerate_In_iff | now apply negb_true_iff].
    + intros (i & Hn & Hu). exists (i, b). split; [reflexivity|].
      apply filter_In. split; [now apply enumerate_In_iff | simpl; now rewrite Hu].
  - apply episode_true_bboxes_unmasked_none.
  - intros i b Hn Hu.
    rewrite !episode_true_bboxes_unmasked_filter, !length_map. simpl.
    apply (unmasked_one_less _ 0%nat i b).
    + apply enumerate_from_increasing.
    + now apply enumerate_In_iff.
    + exact Hu.
Qed.

(** ** The handler a trigger leaves behind *)

#[local] Instance same_log_and_handler_frame' : Frame same_log_and_handler.
Proof.
  split; unfold same_log_and_handler.
  - intuition.
  - intros e1 e2 e3 (A1 & A2) (B1 & B2). split; congruence.
Qed.

Lemma trigger_same_log cfg : preserves (same_on episode_trigger_ious) (trigger cfg).
Proof. unfold trigger, create_ior_mark. frame; reflexivity. Qed.

(** X16: A step that returns runs the registered handler once and clears it: it
    appends the new [iou] to [episode_trigger_ious] when its action is the
    trigger or when a handler was still registered, and appends nothing
    otherwise.  A handler is still registered after a trigger step that
    raised, so the next step that returns, whatever its action, logs an
    IoU. *)
Theorem step_trigger_ious cfg action e :
  (forall obs reward d e',
     step cfg action e = (Ok (obs, reward, d), e') ->
     post_step_handler e' = None /\
     exists a,
       action_set_get cfg action = Ok a /\
       episode_trigger_ious e' =
         episode_trigger_ious e ++ (if logs_an_iou e a then [iou e'] else [])) /\
  (forall x e',
     is_trigger cfg action = Ok true ->
     step cfg action e = (Raise x, e') ->
     post_step_handler e' = Some register_trigger_iou_handler /\
     episode_trigger_ious e' = episode_trigger_ious e).
Proof.
  split.
  - intros obs reward d e' H.
    destruct (step_anatomy _ _ _ _ _ _ _ H)
      as (Hc & e1 & e2 & Hca & Hr & _ & _ & Hiou & _ & _ & Hlog & Hnone & _).
    split; [exact Hnone|].
    destruct (action_space_contains_get _ _ Hc) as [a Hg].
    exists a. split; [exact Hg|].
    pose proof (calculate_reward_same_log cfg action e1) as [L2 H2].
    rewrite Hr in L2, H2. simpl in L2, H2.
    rewrite Hlog, H2, L2, Hiou. unfold logs_an_iou.
    destruct (Action_eqb a Trigger) eqn:Ea.
    + assert (Ht : is_trigger cfg action = Ok true)
        by (unfold is_trigger; now rewrite Hg, Ea).
      unfold call_action, bind, lift in Hca. rewrite Hg in Hca.
      destruct a; try discriminate.
      pose proof (trigger_registers_handler cfg
                    (set_current_step (current_step e + 1)%Z e)) as Hh.
      pose proof (trigger_same_log cfg
                    (set_current_step (current_step e + 1)%Z e)) as Hl.
      unfold same_on in Hl. rewrite Hca in Hh, Hl. simpl in Hh, Hl.
      rewrite Hh, Hl. destruct (post_step_handler e); reflexivity.
    + assert (Hn : is_trigger cfg action <> Ok true)
        by (unfold is_trigger; rewrite Hg, Ea; discriminate).
      pose proof (call_action_same_log cfg action Hn
                    (set_current_step (current_step e + 1)%Z e)) as [L1 H1].
      rewrite Hca in L1, H1. simpl in L1, H1.
      rewrite H1, L1. destruct (post_step_handler e); [reflexivity|].
      now rewrite app_nil_r.
  - intros x e' Ht H.
    pose proof (is_trigger_get _ _ Ht) as Hg.
    pose proof (action_set_get_contains _ _ _ Hg) as Hc.
    unfold step in H. rewrite Hc in H. cbn [negb] in H.
    rewrite bind_modify, bind_unfold in H.
    pose proof (trigger_registers_handler cfg
                  (set_current_step (current_step e + 1)%Z e)) as Hh.
    pose proof (trigger_same_log cfg
                  (set_current_step (current_step e + 1)%Z e)) as Hl.
    unfold same_on in Hl.
    assert (Hca : call_action cfg action (set_current_step (current_step e + 1)%Z e) =
                  trigger cfg (set_current_step (current_step e + 1)%Z e)).
    { unfold call_action, bind, lift. now rewrite Hg. }
    rewrite Hca in H.
    destruct (trigger cfg _) as [[[]|y] e1]; simpl in Hh, Hl.
    + exfalso. rewrite bind_unfold in H.
      rewrite (calculate_reward_trigger_eq cfg action e1 Ht) in H.
      unfold bind, modify, get, ret, run_handler, _register_trigger_iou in H.
      simpl in H. rewrite Hh in H. simpl in H.
      match type of H with
      | context [if ?c then _ else _] => destruct c
      end; discriminate.
    + inversion H; subst. split; [exact Hh | exact Hl].
Qed.

(** ** The marks on the image and the masked indices, in training mode *)

Lemma mark_all_app cfg (boxes : list Box) (masked : list nat) (i : nat) (b : Box)
    (img : Image) :
  nth_error boxes i = Some b ->
  mark_all cfg boxes (masked ++ [i]) img =
  ImageMasker_mask (mark_all cfg boxes masked img) b (ior_marker_type cfg).
Proof.
  intro Hb. revert img. induction masked as [|j rest IH]; intro img; simpl.
  - now rewrite Hb.
  - destruct (nth_error boxes j); apply IH.
Qed.

Lemma hoare_modify2 {A : Type} (P : Env C -> Prop) (f g : Env C -> Env C)
    (k : unit -> M C A) (Q : A -> Env C -> Prop) :
  hoare P (bind (modify (fun e => g (f e))) k) Q ->
  hoare P (bind (modify f) (fun _ => bind (modify g) k)) Q.
Proof. intros H e HP a e' Hm. exact (H e HP a e' Hm). Qed.

#[local] Instance marks_stay_frame cfg (base : Image) : Frame (marks_stay cfg base).
Proof.
  split; unfold marks_stay.
  - auto.
  - intros e1 e2 e3 H1 H2 H. auto.
Qed.

Lemma premask_loop_marks cfg (base : Image) (boxes : list Box)
    (items : list (nat * Box)) :
  (forall i b, In (i, b) items -> nth_error boxes i = Some b) ->
  forall num_unmasked,
    hoare (fun e => marks_match cfg base e /\ episode_true_bboxes e = boxes)
      (premask_loop cfg items num_unmasked)
      (fun _ e => marks_match cfg base e /\ episode_true_bboxes e = boxes).
Proof.
  set (I := fun e : Env C => marks_match cfg base e /\ episode_true_bboxes e = boxes).
  induction items as [|[idx box] rest IH]; intros Hitems num; simpl.
  - apply hoare_ret. auto.
  - assert (Hrest : forall i b, In (i, b) rest -> nth_error boxes i = Some b).
    { intros i b Hin. apply Hitems. now right. }
    eapply (hoare_bind (fun _ => I)); [apply hoare_get; auto|]. intro e1.
    destruct (rng_random (np_random e1)) as [mask_rand rng].
    eapply (hoare_bind (fun _ => I)); [apply hoare_modify; auto|]. intros _.
    destruct num as [n|]; [|apply hoare_raise].
    destruct ((_ <? n)%Z && _); [|now apply IH].
    unfold create_ior_mark. apply hoare_modify2.
    eapply (hoare_bind (fun _ => I)); [|intros _; now apply IH].
    apply hoare_modify. intros e [Hm Hb]. unfold I, marks_match in *. simpl.
    split; [|exact Hb].
    rewrite Hb in *. rewrite (mark_all_app _ _ _ idx box).
    + now rewrite Hm.
    + apply Hitems. now left.
Qed.

Lemma hoare_pure {A : Type} (phi : Prop) (m : M C A) (Q : A -> Env C -> Prop) :
  (phi -> hoare (fun _ => True) m Q) -> hoare (fun _ => phi) m Q.
Proof. intros H e Hphi. exact (H Hphi e I). Qed.

(** A [reset] that returns has marked on the loaded image exactly the boxes
    it has masked. *)
Lemma reset_marks cfg (image_index : option nat) e obs e0 :
  reset cfg image_index e = (Ok obs, e0) ->
  exists path, In path (image_paths cfg) /\ marks_match cfg (loaded_image path) e0.
Proof.
  intro Hr.
  assert (H : hoare (fun _ => True) (reset cfg image_index)
                (fun _ e0 => exists path, In path (image_paths cfg) /\
                                          marks_match cfg (loaded_image path) e0));
    [|exact (H e I obs e0 Hr)].
  clear Hr. unfold reset.
  hoare_next (fun _ : Env C => True) ltac:(auto).
  eapply (hoare_bind (fun (_ : nat) (_ : Env C) => True)).
  { hoare_walk (fun _ : Env C => True) ltac:(auto). }
  intro idx.
  eapply (hoare_bind (fun path (_ : Env C) => In path (image_paths cfg))).
  { apply hoare_lift. intros e1 path _ Hp. unfold py_index in Hp.
    destruct (nth_error (image_paths cfg) idx) eqn:Hn; [|discriminate].
    inversion Hp; subst. eapply nth_error_In; eauto. }
  intro path. apply hoare_pure. intro Hpath.
  eapply (hoare_bind (fun _ => image_opened path)).
  { apply hoare_modify. reflexivity. }
  intros _.
  do 3 (hoare_next (image_opened path)
          ltac:(unfold image_opened in *; simpl; auto)).
  eapply (hoare_bind (fun e1 e2 => image_opened path e1 /\ e2 = e1)).
  { apply hoare_get. auto. }
  intro e1.
  eapply (hoare_bind (fun _ => image_loaded path)).
  { destruct (negb (String.eqb (image_mode (episode_image e1)) "RGB")) eqn:Ergb;
      [apply hoare_modify | apply hoare_ret];
      intros e2 (Hi & ->);
      unfold image_loaded, image_opened, loaded_image in *;
      rewrite Hi in Ergb; rewrite Ergb; simpl; congruence. }
  intros _.
  set (Im := marks_match cfg (loaded_image path)).
  eapply (hoare_bind (fun _ => Im)).
  { apply hoare_modify. intros e2 Hi. unfold Im, marks_match. simpl. exact Hi. }
  intros _.
  eapply (hoare_bind (fun _ => Im)).
  { destruct (String.eqb (mode cfg) "train" && premasking cfg).
    - eapply (hoare_bind (fun e2 e3 => Im e3 /\ episode_true_bboxes e3 =
                                                episode_true_bboxes e2)).
      { apply hoare_get. auto. }
      intro e2.
      eapply hoare_weaken.
      + apply (premask_loop_marks cfg (loaded_image path) (episode_true_bboxes e2)).
        intros i b Hin. now apply enumerate_In_iff.
      + intros e3 [Hm Hb]. split; [exact Hm | exact Hb].
      + intros u e3 [Hm Hb]. exact Hm.
    - apply hoare_ret. auto. }
  intros _.
  hoare_walk Im ltac:(unfold Im, marks_match in *; simpl; eauto).
Qed.

(** The trigger keeps the marks matching, returning or raising, unless it
    marks the window itself (evaluation mode with play-out). *)
Lemma trigger_marks cfg (base : Image) :
  mode cfg = "train"%string \/ playout_episode cfg = false ->
  preserves (marks_stay cfg base) (trigger cfg).
Proof.
  intros Hmode e Hm. unfold trigger. rewrite !bind_modify.
  set (es := set_post_step_handler (Some register_trigger_iou_handler)
               (set_episode_pred_bboxes _ _)).
  assert (Hes : marks_match cfg base es) by exact Hm.
  clearbody es. clear Hm e.
  destruct (playout_episode cfg) eqn:Hp; cbn [negb]; [|exact Hes].
  destruct Hmode as [Hmode|]; [|discriminate].
  rewrite Hmode, String.eqb_refl.
  unfold bind, modify, get, lift, ret, raise, create_ior_mark. cbv beta iota.
  destruct (0 <? List.length (episode_true_bboxes_unmasked es))%nat;
    cbv beta iota; [|exact Hes].
  destruct (closest_unmasked_true_bbox es) as [[[i|] [b|]]|x] eqn:Hc;
    cbv beta iota; try exact Hes.
  destruct (closest_unmasked_true_bbox_member _ _ _ Hc) as [Hnth _].
  unfold marks_match in *. simpl.
  rewrite (mark_all_app _ _ _ i b _ Hnth). now rewrite Hes.
Qed.

Lemma step_marks cfg (base : Image) action :
  mode cfg = "train"%string \/ playout_episode cfg = false ->
  preserves (marks_stay cfg base) (step cfg action).
Proof.
  intro Hmode.
  unfold step, call_action, terminate, calculate_reward, run_handler,
    _register_trigger_iou.
  frame; try (unfold marks_stay, marks_match; simpl; now auto).
  now apply trigger_marks.
Qed.

(** X20: In training mode, and in any mode without play-out, the image and
    the masked indices stay in step: from a [reset] that returns and through
    any run of steps, returning or raising, the episode image is the image
    loaded for one of the paths with exactly the ground-truth boxes at the
    masked indices marked, in the order they were masked. *)
Theorem image_marks_match cfg (image_index : option nat) e obs e0 (actions : list Z) :
  mode cfg = "train"%string \/ playout_episode cfg = false ->
  reset cfg image_index e = (Ok obs, e0) ->
  exists path,
    In path (image_paths cfg) /\
    episode_image (steps cfg actions e0) =
      mark_all cfg (episode_true_bboxes (steps cfg actions e0))
        (episode_masked_indices (steps cfg actions e0)) (loaded_image path).
Proof.
  intros Hmode Hr.
  destruct (reset_marks _ _ _ _ _ Hr) as (path & Hp & Hm).
  exists path. split; [exact Hp|].
  clear Hr. revert e0 Hm.
  induction actions as [|a rest IH]; intros e0 Hm; simpl.
  - exact Hm.
  - apply IH. exact (step_marks cfg (loaded_image path) a Hmode e0 Hm).
Qed.

End MoreProperties.

(** * The further properties at work in the small world *)

Lemma compute_best_iou_is_max_witness :
  let e := toy_start (toy_cfg "train" true toy_boxes) in
  exists r,
    compute_best_iou e = Ok r /\ 0 <= r /\
    forall box, In box (episode_true_bboxes_unmasked e) ->
      exists v, compute_iou (bbox e) box = Ok v /\ v <= r.
Proof.
  cbv zeta.
  assert (Hb : compute_best_iou (toy_start (toy_cfg "train" true toy_boxes))
               = Ok (100 # 10000)) by (vm_compute; reflexivity).
  exists (100 # 10000). split; [exact Hb|].
  destruct (proj1 (compute_best_iou_is_max
                     (toy_start (toy_cfg "train" true toy_boxes))) _ Hb)
    as (H0 & Hall & _).
  split; [exact H0 | exact Hall].
Defined.

Lemma closest_unmasked_true_bbox_spec_witness :
  let e := toy_start (toy_cfg "train" true toy_boxes) in
  well_formed (bbox e) /\
  Forall well_formed (episode_true_bboxes e) /\
  closest_unmasked_true_bbox e = Ok (Some 0%nat, Some (mkBox 60 60 70 70)) /\
  exists i b v,
    Some 0%nat = Some i /\ Some (mkBox 60 60 70 70) = Some b /\
    compute_iou (bbox e) b = Ok v /\
    forall j bj,
      nth_error (episode_true_bboxes e) j = Some bj ->
      index_in j (episode_masked_indices e) = false ->
      exists vj, compute_iou (bbox e) bj = Ok vj /\ vj <= v.
Proof.
  cbv zeta.
  assert (Hw : well_formed (bbox (toy_start (toy_cfg "train" true toy_boxes))))
    by (unfold well_formed; vm_compute; split; discriminate).
  assert (Hgt : Forall well_formed
                  (episode_true_bboxes (toy_start (toy_cfg "train" true toy_boxes)))).
  { vm_compute. repeat constructor; discriminate. }
  assert (Hc : closest_unmasked_true_bbox (toy_start (toy_cfg "train" true toy_boxes))
               = Ok (Some 0%nat, Some (mkBox 60 60 70 70)))
    by (vm_compute; reflexivity).
  split; [exact Hw|]. split; [exact Hgt|]. split; [exact Hc|].
  destruct (closest_unmasked_true_bbox_spec _ _ _ Hw Hgt Hc)
    as [(_ & Hn & _)|(i & b & v & Hi & Hb & _ & _ & Hv & Hmax)]; [discriminate|].
  exists i, b, v. split; [exact Hi|]. split; [exact Hb|]. split; [exact Hv|].
  intros j bj Hj Hu. destruct (Hmax j bj Hj Hu) as (vj & Hvj & Hle & _).
  exists vj. split; [exact Hvj | exact Hle].
Defined.

Lemma compute_best_iou_is_closest_witness :
  let e := toy_start (toy_cfg "train" true toy_boxes) in
  compute_best_iou e = Ok (100 # 10000) /\
  closest_unmasked_true_bbox e = Ok (Some 0%nat, Some (mkBox 60 60 70 70)) /\
  exists v, compute_iou (bbox e) (mkBox 60 60 70 70) = Ok v /\ v == 100 # 10000.
Proof.
  cbv zeta.
  assert (Hw : well_formed (bbox (toy_start (toy_cfg "train" true toy_boxes))))
    by (unfold well_formed; vm_compute; split; discriminate).
  assert (Hgt : Forall well_formed
                  (episode_true_bboxes (toy_start (toy_cfg "train" true toy_boxes)))).
  { vm_compute. repeat constructor; discriminate. }
  assert (Hb : compute_best_iou (toy_start (toy_cfg "train" true toy_boxes))
               = Ok (100 # 10000)) by (vm_compute; reflexivity).
  assert (Hc : closest_unmasked_true_bbox (toy_start (toy_cfg "train" true toy_boxes))
               = Ok (Some 0%nat, Some (mkBox 60 60 70 70)))
    by (vm_compute; reflexivity).
  split; [exact Hb|]. split; [exact Hc|].
  exact (compute_best_iou_is_closest _ _ _ _ Hw Hgt Hb Hc).
Defined.

Lemma episode_true_bboxes_unmasked_spec_witness :
  let e := toy_start (toy_cfg "train" true toy_boxes) in
  nth_error (episode_true_bboxes e) 1 = Some (mkBox 80 80 90 90) /\
  index_in 1 (episode_masked_indices e) = false /\
  (List.length (episode_true_bboxes_unmasked
     (set_episode_masked_indices (episode_masked_indices e ++ [1%nat]) e)) + 1 =
   List.length (episode_true_bboxes_unmasked e))%nat.
Proof.
  cbv zeta.
  assert (Hn : nth_error (episode_true_bboxes
                            (toy_start (toy_cfg "train" true toy_boxes))) 1
               = Some (mkBox 80 80 90 90)) by (vm_compute; reflexivity).
  assert (Hu : index_in 1 (episode_masked_indices
                             (toy_start (toy_cfg "train" true toy_boxes))) = false)
    by (vm_compute; reflexivity).
  split; [exact Hn|]. split; [exact Hu|].
  exact (proj2 (proj2 (episode_true_bboxes_unmasked_spec
                         (toy_start (toy_cfg "train" true toy_boxes))))
               _ _ Hn Hu).
Defined.

Lemma step_raises_only_witness :
  let cfg := toy_cfg "train" true toy_boxes in
  let e := toy_start cfg in
  step (C := toy) cfg 7 e = (Raise AssertionError, e) /\
  action_space_contains (C := toy) cfg 7 = false.
Proof.
  cbv zeta.
  assert (Hs : step (C := toy) (toy_cfg "train" true toy_boxes) 7
                 (toy_start (toy_cfg "train" true toy_boxes))
               = (Raise AssertionError, toy_start (toy_cfg "train" true toy_boxes)))
    by (vm_compute; reflexivity).
  split; [exact Hs|].
  destruct (step_raises_only _ _ _ _ _ Hs) as [(_ & Hc & _)|(Hx & _)];
    [exact Hc | discriminate].
Defined.

Lemma step_history_witness :
  let cfg := toy_cfg "train" true toy_boxes in
  let e := toy_start cfg in
  let r := step (C := toy) cfg 0 e in
  r = (Ok (state (snd r), 0, false), snd r) /\
  history (snd r) = [[true; false; false; false]; [false; false; false; false]] /\
  List.length (history (snd r)) = List.length (history e).
Proof.
  cbv zeta.
  assert (Hs : step (C := toy) (toy_cfg "train" true toy_boxes) 0
                 (toy_start (toy_cfg "train" true toy_boxes)) =
               (Ok (state (snd (step (C := toy) (toy_cfg "train" true toy_boxes) 0
                                  (toy_start (toy_cfg "train" true toy_boxes)))),
                    0, false),
                snd (step (C := toy) (toy_cfg "train" true toy_boxes) 0
                       (toy_start (toy_cfg "train" true toy_boxes)))))
    by (vm_compute; reflexivity).
  split; [exact Hs|].
  destruct (step_history _ _ _ _ _ _ _ Hs) as (Hh & Hl & _).
  split; [|exact Hl]. rewrite Hh. vm_compute. reflexivity.
Defined.

Lemma history_shape_kept_witness :
  let cfg := toy_cfg "train" true toy_boxes in
  reset (C := toy) cfg (Some 0%nat) toy_blank =
    (Ok (state (toy_start cfg)), toy_start cfg) /\
  forall actions : list Z,
    history_shape 2 4 (steps (C := toy) cfg actions (toy_start cfg)).
Proof.
  cbv zeta.
  assert (Hr : reset (C := toy) (toy_cfg "train" true toy_boxes) (Some 0%nat) toy_blank
               = (Ok (state (toy_start (toy_cfg "train" true toy_boxes))),
                  toy_start (toy_cfg "train" true toy_boxes)))
    by (vm_compute; reflexivity).
  split; [exact Hr|].
  intro actions. exact (history_shape_kept _ _ _ _ _ actions Hr).
Defined.

Lemma step_done_witness :
  let cfg := toy_cfg "train" true toy_boxes in
  let e := toy_start cfg in
  let r := step (C := toy) cfg 3 e in
  r = (Ok (state (snd r), - (10), true), snd r) /\
  current_step (snd r) = 1%Z /\
  done (snd (step (C := toy) cfg 0 (snd r))) = true.
Proof.
  cbv zeta.
  assert (Hs : step (C := toy) (toy_cfg "train" true toy_boxes) 3
                 (toy_start (toy_cfg "train" true toy_boxes)) =
               (Ok (state (snd (step (C := toy) (toy_cfg "train" true toy_boxes) 3
                                  (toy_start (toy_cfg "train" true toy_boxes)))),
                    - (10), true),
                snd (step (C := toy) (toy_cfg "train" true toy_boxes) 3
                       (toy_start (toy_cfg "train" true toy_boxes)))))
    by (vm_compute; reflexivity).
  split; [exact Hs|].
  destruct (proj2 (step_done (toy_cfg "train" true toy_boxes) 3
                     (toy_start (toy_cfg "train" true toy_boxes))) _ _ _ _ Hs)
    as (Hc & Hd & _).
  split; [exact Hc|].
  apply (proj1 (step_done (toy_cfg "train" true toy_boxes) 0 _)).
  symmetry. exact Hd.
Defined.

Lemma steps_logs_grow_witness :
  let cfg := toy_cfg "train" true toy_boxes in
  let e := toy_start cfg in
  Z.of_nat (List.length (episode_pred_bboxes e)) = num_triggers_used e /\
  forall actions : list Z,
    Z.of_nat (List.length (episode_pred_bboxes (steps (C := toy) cfg actions e))) =
    num_triggers_used (steps (C := toy) cfg actions e).
Proof.
  cbv zeta.
  assert (H0 : Z.of_nat (List.length (episode_pred_bboxes
                 (toy_start (toy_cfg "train" true toy_boxes)))) =
               num_triggers_used (toy_start (toy_cfg "train" true toy_boxes)))
    by (vm_compute; reflexivity).
  split; [exact H0|].
  intro actions.
  exact (proj2 (steps_logs_grow (toy_cfg "train" true toy_boxes) actions
                  (toy_start (toy_cfg "train" true toy_boxes))) H0).
Defined.

Lemma step_transform_witness :
  let cfg := toy_cfg "train" true toy_boxes in
  let e := toy_start cfg in
  (0 <= 1 < Z.of_nat (n_transformer_actions (Collaborators := toy)))%Z /\
  exists obs d e',
    step (C := toy) cfg 1 e = (Ok (obs, 0, d), e') /\
    bbox_transformer e' = mkBox 100 0 200 100.
Proof.
  cbv zeta.
  assert (Hr : (0 <= 1 < Z.of_nat (n_transformer_actions (Collaborators := toy)))%Z)
    by (vm_compute; split; [discriminate | reflexivity]).
  split; [exact Hr|].
  destruct (step_transform (toy_cfg "train" true toy_boxes) 1
              (toy_start (toy_cfg "train" true toy_boxes)) Hr) as [Hpost Hret].
  destruct Hret as (obs & d & e' & Hs).
  - intros box Hin. vm_compute in Hin.
    destruct Hin as [<-|[<-|[]]]; eexists; vm_compute; reflexivity.
  - exists obs, d, e'. split; [exact Hs|].
    destruct (Hpost _ _ _ _ Hs) as (_ & Hb & _). rewrite Hb. vm_compute. reflexivity.
Defined.

Lemma step_trigger_train_witness :
  let cfg := toy_cfg "train" true toy_boxes in
  let e := toy_start cfg in
  let r := step (C := toy) cfg 2 e in
  mode cfg = "train"%string /\
  playout_episode cfg = true /\
  is_trigger (C := toy) cfg 2 = Ok true /\
  r = (Ok (state (snd r), 70 * (100 # 10000) - 1 * (3 # 100), false), snd r) /\
  episode_masked_indices (snd r) = [0%nat] /\
  List.length (episode_true_bboxes_unmasked (snd r)) = 1%nat.
Proof.
  cbv zeta.
  assert (Hm : mode (toy_cfg "train" true toy_boxes) = "train"%string) by reflexivity.
  assert (Hp : playout_episode (toy_cfg "train" true toy_boxes) = true) by reflexivity.
  assert (Ht : is_trigger (C := toy) (toy_cfg "train" true toy_boxes) 2 = Ok true)
    by (vm_compute; reflexivity).
  assert (Hs : step (C := toy) (toy_cfg "train" true toy_boxes) 2
                 (toy_start (toy_cfg "train" true toy_boxes)) =
               (Ok (state (snd (step (C := toy) (toy_cfg "train" true toy_boxes) 2
                                  (toy_start (toy_cfg "train" true toy_boxes)))),
                    70 * (100 # 10000) - 1 * (3 # 100), false),
                snd (step (C := toy) (toy_cfg "train" true toy_boxes) 2
                       (toy_start (toy_cfg "train" true toy_boxes)))))
    by (vm_compute; reflexivity).
  split; [exact Hm|]. split; [exact Hp|]. split; [exact Ht|]. split; [exact Hs|].
  destruct (step_trigger_train _ _ _ _ _ _ _ Hm Hp Ht Hs)
    as (_ & _ & _ & [(Hnil & _)|(i & b & Hc & _ & _ & Hmask & _ & Hlen)]).
  - vm_compute in Hnil. discriminate.
  - assert (Hi : i = 0%nat) by (vm_compute in Hc; congruence).
    subst i. split; [rewrite Hmask; vm_compute; reflexivity|].
    assert (H2 : List.length (episode_true_bboxes_unmasked
                    (toy_start (toy_cfg "train" true toy_boxes))) = 2%nat)
      by (vm_compute; reflexivity).
    rewrite H2 in Hlen. lia.
Defined.

Lemma step_trigger_ious_witness :
  let cfg := toy_cfg "train" true toy_boxes in
  let e := set_post_step_handler (C := toy) (Some register_trigger_iou_handler)
             (toy_start cfg) in
  let r := step (C := toy) cfg 0 e in
  r = (Ok (state (snd r), 0, false), snd r) /\
  post_step_handler (snd r) = None /\
  episode_trigger_ious (snd r) = [iou (snd r)].
Proof.
  cbv zeta.
  set (cfg := toy_cfg "train" true toy_boxes).
  set (e := set_post_step_handler (C := toy) (Some register_trigger_iou_handler)
              (toy_start cfg)).
  assert (Hs : step (C := toy) cfg 0 e =
               (Ok (state (snd (step (C := toy) cfg 0 e)), 0, false),
                snd (step (C := toy) cfg 0 e)))
    by (vm_compute; reflexivity).
  split; [exact Hs|].
  destruct (proj1 (step_trigger_ious cfg 0 e) _ _ _ _ Hs) as (Hn & a & Hg & Hl).
  split; [exact Hn|]. rewrite Hl. reflexivity.
Defined.

Lemma reset_fresh_episode_witness :
  let cfg := toy_cfg "train" true toy_boxes in
  reset (C := toy) cfg (Some 0%nat) toy_blank =
    (Ok (state (toy_start cfg)), toy_start cfg) /\
  fresh_episode cfg (bbox_transformer toy_blank) (toy_start cfg).
Proof.
  cbv zeta.
  assert (Hr : reset (C := toy) (toy_cfg "train" true toy_boxes) (Some 0%nat) toy_blank
               = (Ok (state (toy_start (toy_cfg "train" true toy_boxes))),
                  toy_start (toy_cfg "train" true toy_boxes)))
    by (vm_compute; reflexivity).
  split; [exact Hr|].
  exact (proj1 (reset_fresh_episode _ _ _ _ _ Hr)).
Defined.

(** Both draws are below [P_MASK], yet only the first box is masked: without
    a termination action one box has to stay. *)
Lemma reset_premask_floor_witness :
  let e0 := snd (reset (C := toy) toy_premask_cfg (Some 0%nat) (toy_blank_draws [0; 0])) in
  reset (C := toy) toy_premask_cfg (Some 0%nat) (toy_blank_draws [0; 0]) =
    (Ok (state e0), e0) /\
  has_termination_action toy_premask_cfg = false /\
  episode_masked_indices e0 = [0%nat] /\
  episode_true_bboxes_unmasked e0 <> [].
Proof.
  cbv zeta.
  set (e0 := snd (reset (C := toy) toy_premask_cfg (Some 0%nat)
                    (toy_blank_draws [0; 0]))).
  assert (Hr : reset (C := toy) toy_premask_cfg (Some 0%nat) (toy_blank_draws [0; 0])
               = (Ok (state e0), e0)) by (vm_compute; reflexivity).
  split; [exact Hr|]. split; [reflexivity|]. split; [vm_compute; reflexivity|].
  apply (proj2 (proj2 (reset_premask_floor _ _ _ _ _ Hr))).
  - reflexivity.
  - vm_compute. discriminate.
Defined.


Lemma image_marks_match_witness :
  let cfg := toy_cfg "train" true toy_boxes in
  mode cfg = "train"%string /\
  reset (C := toy) cfg (Some 0%nat) toy_blank =
    (Ok (state (toy_start cfg)), toy_start cfg) /\
  forall actions : list Z,
    exists path,
      In path (image_paths cfg) /\
      episode_image (steps (C := toy) cfg actions (toy_start cfg)) =
        mark_all (C := toy) cfg
          (episode_true_bboxes (steps (C := toy) cfg actions (toy_start cfg)))
          (episode_masked_indices (steps (C := toy) cfg actions (toy_start cfg)))
          (loaded_image (C := toy) path).
Proof.
  cbv zeta.
  assert (Hm : mode (toy_cfg "train" true toy_boxes) = "train"%string) by reflexivity.
  assert (Hr : reset (C := toy) (toy_cfg "train" true toy_boxes) (Some 0%nat) toy_blank
               = (Ok (state (toy_start (toy_cfg "train" true toy_boxes))),
                  toy_start (toy_cfg "train" true toy_boxes)))
    by (vm_compute; reflexivity).
  split; [exact Hm|]. split; [exact Hr|].
  intro actions.
  exact (image_marks_match _ _ _ _ _ actions (or_introl Hm) Hr).
Defined.
